(** * Open-Source-Hunter: the worker pipeline and the backend's await loop

    A shallow embedding of [worker/index.mjs] (scoring, ranking, summary,
    enrichment, job handling, dequeue loop) and of the backend's
    [waitForResult], with the properties of the design document stated
    and proved over it; and, for the further properties, of the backend's
    [enqueueJob] and action handler, of the state updates of the
    dashboard's search history, of the text of a project card and of the
    list operations of the favorites route.

    Conventions of the embedding.
    - JavaScript strings are [string]; a nullable or optional field is an
      [option]; a string used as a condition is true when non-empty.
    - GitHub's counters are naturals ([N]); timestamps are milliseconds
      ([Z]).
    - [daysSinceUpdate] is a JavaScript number that is an integer,
      [Infinity] or [NaN]: the type [days].
    - A number of the score is a double: module [Double] has the
      arithmetic of IEEE-754 binary64, every operation rounding its exact
      result to the nearest double, a tie to the one with the even
      significand. Numbers of 2^1024 and more, which no counter and no
      age comes near, are not turned into infinities, and the two zeros
      are one. [Math.log10], which the language leaves to the engine, is
      a variable. The score is stored in hundredths: the field [score]
      holds the integer [n] such that the JavaScript value is [n/100].
    - Library functions the code calls but does not define ([Date]
      parsing and printing, [toLocaleString], [encodeURIComponent],
      [JSON.parse]) and the environment settings are variables of the
      section [Hunter].
    - The queue store never fails; the documents it holds are kept as the
      objects the code serialises.
    - The primary source, the enrichment source and the clock are inputs:
      a [World] per served request; the clock does not move while one
      request is served. The await loop of the backend has its own
      millisecond clock, advanced by the blocking pop.

    The file has three parts: the embedding, the properties (section
    [Hunter]), and concrete runs on sample data. *)

From Stdlib Require Import ZArith NArith List Ascii String Lia.
From Stdlib Require Import Floats.
From stdpp Require Import base decidable option list sorting strings pretty gmap.

Open Scope string_scope.
Open Scope Z_scope.
Open Scope list_scope.

Set Default Proof Using "Type".

(** ** JavaScript string helpers *)

Module Js.

(** The double-quote character (code 34). *)
Definition dquote : string :=
  String (Ascii false true false false false true false false) EmptyString.

(** Truthiness of a string: non-empty. *)
Definition truthy (s : string) : bool :=
  match s with EmptyString => false | String _ _ => true end.

(** Truthiness of a nullable string. *)
Definition truthy_opt (o : option string) : bool :=
  match o with Some s => truthy s | None => false end.

(** [String.prototype.trim], on the ASCII white space characters. *)
Fixpoint trimStart (s : string) : string :=
  match s with
  | EmptyString => EmptyString
  | String c r => if Ascii.is_space c then trimStart r else s
  end.

Definition trimEnd (s : string) : string :=
  String.rev (trimStart (String.rev s)).

Definition trim (s : string) : string := trimEnd (trimStart s).

(** [String.prototype.toLowerCase], on the ASCII letters. *)
Definition lower_char (c : ascii) : ascii :=
  let n := nat_of_ascii c in
  if (Nat.leb 65 n && Nat.leb n 90)%bool then ascii_of_nat (n + 32) else c.

Fixpoint toLowerCase (s : string) : string :=
  match s with
  | EmptyString => EmptyString
  | String c r => String (lower_char c) (toLowerCase r)
  end.

(** [s.startsWith(p)]. *)
Definition startsWith (p s : string) : bool := String.prefix p s.

(** [s.includes(" ")]. *)
Fixpoint includes_space (s : string) : bool :=
  match s with
  | EmptyString => false
  | String c r => if Ascii.eqb c " "%char then true else includes_space r
  end.

(** [parts.join(sep)]. *)
Fixpoint join (sep : string) (parts : list string) : string :=
  match parts with
  | [] => ""
  | [x] => x
  | x :: rest => x +:+ sep +:+ join sep rest
  end.

(** [array.filter(Boolean)] on an array of strings and nulls. *)
Fixpoint filterBoolean (l : list (option string)) : list string :=
  match l with
  | [] => []
  | Some s :: r => if truthy s then s :: filterBoolean r else filterBoolean r
  | None :: r => filterBoolean r
  end.

(** [array.slice(0, e)] for an integer [e]: a negative [e] counts from the
    end of the array. *)
Definition slice0 {A} (l : list A) (e : Z) : list A :=
  if e <? 0
  then take (Z.to_nat (Z.max (Z.of_nat (length l) + e) 0)) l
  else take (Z.to_nat e) l.

(** [new Set(l)] followed by [Array.from]: the distinct elements in the
    order of their first occurrence. [seen] is the set built so far. *)
Fixpoint setFrom (seen : list string) (l : list string) : list string :=
  match l with
  | [] => seen
  | x :: r =>
      if bool_decide (x ∈ seen) then setFrom seen r else setFrom (seen ++ [x]) r
  end.

End Js.

(** ** Double-precision numbers *)

Module Double.

(** A finite double, as a whole number of units of 2^-1074, the smallest
    positive double: every finite double is such a multiple. *)
Definition double : Type := Z.

(** The number 1. *)
Definition one : double := 2 ^ 1074.

(** The integer nearest to [p/q], for [q > 0]: the even one when two are
    as near. *)
Definition rne (p q : Z) : Z :=
  let f := p / q in
  let r := p mod q in
  if 2 * r <? q then f
  else if q <? 2 * r then f + 1
  else if Z.even f then f else f + 1.

(** The number of low bits that a value of [a/q] units has no room for: a
    double keeps 53 significant bits, and all of them below 2^53 units,
    where the subnormal numbers and the first normal ones lie. *)
Definition shift (a q : Z) : Z := Z.max 0 (Z.log2 (a / q) - 52).

(** The double nearest to [a/q] units, for [a >= 0] and [q > 0]. *)
Definition magnitude (a q : Z) : Z :=
  rne a (q * 2 ^ shift a q) * 2 ^ shift a q.

(** Rounding to nearest, ties to even: the double nearest to [p/q] units,
    for [q > 0]. *)
Definition round (p q : Z) : double := Z.sgn p * magnitude (Z.abs p) q.

(** The double of an integer, and the double a decimal literal [p/q]
    denotes. *)
Definition ofZ (n : Z) : double := round (n * one) 1.
Definition decimal (p q : Z) : double := round (p * one) q.

(** The operators [+], [-], [*] and [/]. No division of the code has a
    zero divisor; the quotient is left at 0 there. *)
Definition add (x y : double) : double := round (x + y) 1.
Definition sub (x y : double) : double := round (x - y) 1.
Definition mul (x y : double) : double := round (x * y) one.
Definition div (x y : double) : double :=
  if y =? 0 then 0 else round (Z.sgn y * x * one) (Z.abs y).

(** [Math.max] and [Math.min] of two numbers. *)
Definition max (x y : double) : double := Z.max x y.
Definition min (x y : double) : double := Z.min x y.

(** The integer a double is, if it is one. *)
Definition whole (x : double) : option Z :=
  if x mod one =? 0 then Some (x / one) else None.

(** The value of a primitive float of the kernel, when it is finite. *)
Definition ofFloat (f : float) : option double :=
  match Prim2SF f with
  | S754_zero _ => Some 0
  | S754_finite s m e => Some ((if s then -1 else 1) * Z.pos m * 2 ^ (e + 1074))
  | _ => None
  end.

End Double.

Abbreviation double := Double.double.

Declare Scope double_scope.
Delimit Scope double_scope with D.
Infix "+" := Double.add : double_scope.
Infix "-" := Double.sub : double_scope.
Infix "*" := Double.mul : double_scope.
Infix "/" := Double.div : double_scope.

(** ** Data model *)

(** The value of [daysSinceUpdate]. *)
Inductive days : Type :=
| Finite (d : Z)
| PosInf
| NaN.

(** [Number.isFinite]. *)
Definition isFinite (d : days) : bool :=
  match d with Finite _ => true | _ => false end.

Record License := mkLicense {
  spdx_id : option string;
  license_name : option string
}.

Record Owner := mkOwner {
  login : option string;
  owner_html_url : option string;
  owner_type : option string
}.

(** A raw candidate, as GitHub's search returns it. *)
Record Repo := mkRepo {
  repo_id : Z;
  full_name : string;
  html_url : string;
  repo_description : option string;
  repo_homepage : option string;
  stargazers_count : N;
  forks_count : N;
  watchers_count : N;
  open_issues_count : N;
  repo_language : option string;
  repo_topics : option (list string);
  repo_license : option License;
  pushed_at : option string;
  updated_at : option string;
  repo_owner : option Owner;
  default_branch : option string
}.

(** A ranked candidate, the object [normalizeRepo] returns. *)
Record Project := mkProject {
  id : Z;
  name : string;
  url : string;
  description : string;
  homepage : option string;
  stars : N;
  forks : N;
  watchers : N;
  openIssues : N;
  language : option string;
  topics : list string;
  license : option string;
  lastPushedAt : option string;
  daysSinceUpdate : days;
  owner : option Owner;
  defaultBranch : option string;
  score : Z;
  reasons : list string
}.

(** ** Scoring and normalization *)

(** [describeFreshness]. *)
Definition describeFreshness (daysSinceUpdate : days) : string :=
  match daysSinceUpdate with
  | Finite d =>
      if d <=? 7 then "updated this week"
      else if d <=? 30 then "updated this month"
      else if d <=? 90 then "activity within the last quarter"
      else if d <=? 180 then "activity within the last six months"
      else if d <=? 365 then "activity within the last year"
      else "no recent commits in the last year"
  | _ => "unknown activity"
  end.

(** [cleanDescription]. *)
Definition cleanDescription (raw : option string) : string :=
  let value := match raw with Some s => Js.trim s | None => "" end in
  if negb (Js.truthy value) then "" else value.

(** A counter of the response, read by [JSON.parse]. *)
Definition count (n : N) : double := Double.ofZ (Z.of_N n).

(** [Number(x.toFixed(2))], in hundredths: the integer [n] with [n/100]
    closest to the exact value of the double [x], the larger one in
    absolute value when two are as close. *)
Definition toFixed2 (x : double) : Z :=
  Z.sgn x * ((200 * Z.abs x + Double.one) / (2 * Double.one)).

(** [Math.round(ms / (1000 * 60 * 60 * 24))] for an integer [ms]: the
    nearest integer, a half rounded up. *)
Definition roundDays (ms : Z) : Z := (ms + 43200000) / 86400000.

(** [Math.max(0, 3 - d / 120)] guarded by [Number.isFinite]. *)
Definition freshnessScore (d : days) : double :=
  match d with
  | Finite n => Double.max 0 (Double.ofZ 3 - Double.ofZ n / Double.ofZ 120)%D
  | _ => 0
  end.

(** The search filters of a job: the [payload] of a request. *)
Record SearchFilters := mkFilters {
  topic : string;
  languageFilter : option string;
  minStars : option Z;
  onlyMaintained : bool;
  limit : Z
}.

(** A request after [JSON.parse]: [job?.id] and [job?.payload]; [None] is
    a missing field. *)
Record Job := mkJob {
  job_id : option string;
  job_payload : option SearchFilters
}.

(** The document pushed on a job's result queue. *)
Inductive ResultEnvelope : Type :=
| Completed (summary : string) (filters : SearchFilters) (totalFetched : nat)
    (projects : list Project) (generatedAt : string)
| Failed (error : string) (filters : SearchFilters).

(** The document stored under a job's status key. *)
Inductive JobStatus : Type :=
| StProcessing (updatedAt startedAt topic : string)
| StCompleted (completedAt : string) (totalFetched : nat)
| StError (error completedAt : string).

(** What the primary source answers to the search request. *)
Inductive GitHubReply : Type :=
| GhThrows (message : string)
| GhHttp (status : Z) (body : string) (items : option (list Repo)).

Record TavilyPayload := mkTavilyPayload {
  answer : option string;
  results : list (option string)
}.

(** What the enrichment source answers to one lookup; the payload is
    [None] when the body is not JSON. *)
Inductive TavilyReply : Type :=
| TvThrows (message : string)
| TvHttp (status : Z) (text : string) (payload : option TavilyPayload).

(** The world outside the worker while it serves one request: the clock,
    the primary source, and the enrichment source per selected candidate
    (by position) and query. *)
Record World := mkWorld {
  Date_now : Z;
  github : string -> GitHubReply;
  tavily : nat -> string -> TavilyReply
}.

Inductive LogEntry : Type :=
| ConsoleWarn (text : string)
| ConsoleError (text : string).

(** The queue store; the three key families never collide, so each has
    its own map. Stored documents are kept as the objects the code
    serialises. *)
Record Redis := mkRedis {
  requests : list string;
  resultQueues : gmap string (list ResultEnvelope);
  jobMeta : gmap string JobStatus;
  ttl : gmap string Z
}.

Record Worker := mkWorker {
  redis : Redis;
  console : list LogEntry
}.

Definition REQUEST_QUEUE : string := "hunter:requests".
Definition RESULT_PREFIX : string := "hunter:results".
Definition JOB_METADATA_PREFIX : string := "hunter:job".

(** [response.ok]. *)
Definition response_ok (status : Z) : bool :=
  ((200 <=? status) && (status <=? 299))%bool.

(** ** The caller's side of a result queue *)

(** A result pushed on the job's result queue by a worker, and when. *)
Record Arrival := mkArrival {
  pushedAt : Z;
  raw : string
}.

Inductive WaitOutcome : Type :=
| Returned (parsed : ResultEnvelope)
| MalformedData
| TimedOut.

(** [Math.ceil(ms / 1000)] for an integer [ms]. *)
Definition ceilSeconds (ms : Z) : Z := - ((- ms) / 1000).

(** ** The backend's action and the shared key space *)





(** ** The dashboard's history and the favorites list *)

(** A stored search, [SearchResult] of [lib/types.ts]. *)
Record SearchResult := mkSearchResult {
  sr_jobId : string;
  sr_summary : string;
  sr_filters : SearchFilters;
  sr_generatedAt : string;
  sr_totalFetched : nat;
  sr_projects : list Project
}.

Record AgentState := mkAgentState {
  searches : list SearchResult;
  activeJobId : option string
}.

(** [LRANGE key 0 stop], and what [LTRIM key 0 stop] keeps: the elements
    up to index [stop] included, a negative [stop] counting from the
    end. *)
Definition lrange0 {A} (l : list A) (stop : Z) : list A :=
  let stop' := if stop <? 0 then Z.of_nat (length l) + stop else stop in
  if stop' <? 0 then [] else take (Z.to_nat (stop' + 1)) l.

(** ** Accessors of the published documents *)

Definition envelopeStatus (e : ResultEnvelope) : string :=
  match e with
  | Completed _ _ _ _ _ => "completed"
  | Failed _ _ => "error"
  end.

Definition envelopeFilters (e : ResultEnvelope) : SearchFilters :=
  match e with
  | Completed _ filters _ _ _ => filters
  | Failed _ filters => filters
  end.

Definition envelopeGeneratedAt (e : ResultEnvelope) : option string :=
  match e with
  | Completed _ _ _ _ generatedAt => Some generatedAt
  | Failed _ _ => None
  end.

Definition envelopeSummary (e : ResultEnvelope) : option string :=
  match e with
  | Completed summary _ _ _ _ => Some summary
  | Failed _ _ => None
  end.

Definition envelopeTotalFetched (e : ResultEnvelope) : option nat :=
  match e with
  | Completed _ _ totalFetched _ _ => Some totalFetched
  | Failed _ _ => None
  end.

Definition envelopeProjects (e : ResultEnvelope) : option (list Project) :=
  match e with
  | Completed _ _ _ projects _ => Some projects
  | Failed _ _ => None
  end.

Definition envelopeError (e : ResultEnvelope) : option string :=
  match e with
  | Completed _ _ _ _ _ => None
  | Failed error _ => Some error
  end.

(** [a] may stand before [b] in a descending ranking. *)
Definition scoreGe (a b : Project) : Prop := score b <= score a.

(** ** Sample data *)

Module Sample.

(** Instants are read as decimal milliseconds. *)
Definition getTime (s : string) : option Z :=
  if bool_decide (s = "2024-01-01T00:00:00Z") then Some 1704067200000
  else if bool_decide (s = "2024-03-01T00:00:00Z") then Some 1709251200000
  else if bool_decide (s = "2024-03-22T00:00:00Z") then Some 1711065600000
  else None.

(** [Math.log10] at the arguments the sample data gives it, 1, 2, 10, 100
    and 1000, and constant between them. *)
Definition log10 (x : double) : double :=
  if x <? Double.ofZ 2 then 0
  else if x <? Double.ofZ 10 then Double.decimal 3010299956639812 (10 ^ 16)
  else if x <? Double.ofZ 100 then Double.ofZ 1
  else if x <? Double.ofZ 1000 then Double.ofZ 2
  else Double.ofZ 3.

Definition localeString (n : N) : string := pretty n.
Definition isoString (ms : Z) : string := pretty ms.
Definition encode (s : string) : string := s.
Definition since (ms : Z) : string := "2023-03-31".

(** 2024-03-31T00:00:00Z. *)
Definition now : Z := 1711843200000.

Definition repo (n : Z) (full : string) (starCount : N) (pushed : option string)
    : Repo :=
  {| repo_id := n; full_name := full; html_url := "https://github.com/" +:+ full;
     repo_description := None; repo_homepage := None;
     stargazers_count := starCount; forks_count := 0; watchers_count := starCount;
     open_issues_count := 0; repo_language := Some "Rust"; repo_topics := None;
     repo_license := None; pushed_at := pushed; updated_at := None;
     repo_owner := None; default_branch := Some "main" |}.

(** A candidate with 999 stars, 99 forks, 9 watchers and no open issue,
    pushed nine days before [now]. *)
Definition popular : Repo :=
  {| repo_id := 7; full_name := "p/popular";
     html_url := "https://github.com/p/popular";
     repo_description := None; repo_homepage := None;
     stargazers_count := 999; forks_count := 99; watchers_count := 9;
     open_issues_count := 0; repo_language := Some "Rust"; repo_topics := None;
     repo_license := None; pushed_at := Some "2024-03-22T00:00:00Z";
     updated_at := None; repo_owner := None; default_branch := Some "main" |}.

(** The primitive float of an integer. *)
Definition floatOfZ (n : Z) : float :=
  if n <? 0 then (- of_uint63 (Uint63.of_Z (- n)))%float
  else of_uint63 (Uint63.of_Z n).

Definition project (n : Z) (full : string) (text : string) (points : Z)
    (why : list string) : Project :=
  {| id := n; name := full; url := "https://github.com/" +:+ full;
     description := text; homepage := None; stars := 0; forks := 0;
     watchers := 0; openIssues := 0; language := Some "Rust"; topics := [];
     license := None; lastPushedAt := None; daysSinceUpdate := PosInf;
     owner := None; defaultBranch := Some "main"; score := points;
     reasons := why |}.

Definition filters (n : Z) : SearchFilters :=
  {| topic := "graph database"; languageFilter := None; minStars := None;
     onlyMaintained := false; limit := n |}.

(** Two candidates found fresh this week. *)
Definition twoFresh : list Project :=
  [Sample.project 1 "a/one" "" 150 ["updated this week"];
   Sample.project 2 "b/two" "" 120 ["updated this week"; "License: MIT"]].

(** An enrichment source that cannot be reached. *)
Definition unreachable : nat -> string -> TavilyReply :=
  fun _ _ => TvThrows "fetch failed".

(** A primary source that answers 500. *)
Definition worldDown : World :=
  {| Date_now := now;
     github := fun _ => GhHttp 500 "boom" None;
     tavily := unreachable |}.

(** A primary source that returns one repository with one star, whatever
    the query. *)
Definition worldOne : World :=
  {| Date_now := now;
     github := fun _ => GhHttp 200 "" (Some [repo 1 "a/one" 1 None]);
     tavily := unreachable |}.

Definition filtersMinStars (n : Z) : SearchFilters :=
  {| topic := "graph database"; languageFilter := None; minStars := Some n;
     onlyMaintained := false; limit := 6 |}.

(** Only the request [good] parses. *)
Definition parseJob (raw : string) : option Job :=
  if bool_decide (raw = "good")
  then Some {| job_id := Some "job-1"; job_payload := Some (filters 6) |}
  else None.

Definition parseResult (raw : string) : option ResultEnvelope :=
  Some (Failed raw (filters 6)).

(** A worker with an empty store and the given pending requests. *)
Definition idle (pending : list string) : Worker :=
  {| redis := {| requests := pending; resultQueues := ∅; jobMeta := ∅; ttl := ∅ |};
     console := [] |}.

(** An enrichment source that answers every lookup. *)
Definition worldAnswer : World :=
  {| Date_now := now;
     github := fun _ => GhHttp 200 "" (Some [repo 1 "a/one" 1 None]);
     tavily := fun _ _ =>
       TvHttp 200 ""
         (Some {| answer := Some " A graph store. "; results := [Some "ignored"] |}) |}.





Definition search (jobId : string) : SearchResult :=
  {| sr_jobId := jobId; sr_summary := "Found 2 standout open-source project(s)";
     sr_filters := filters 6; sr_generatedAt := "2024-03-31T00:00:00.000Z";
     sr_totalFetched := 2; sr_projects := twoFresh |}.

Definition history : AgentState :=
  {| searches := [search "job-1"; search "job-2"]; activeJobId := Some "job-1" |}.

End Sample.

(** * The worker and the backend *)

Section Hunter.

(** [new Date(s).getTime()]: [None] is an invalid date. *)
Variable Date_getTime : string -> option Z.
(** [Math.log10], an approximation of the logarithm that the engine
    chooses. *)
Variable Math_log10 : double -> double.
(** [n.toLocaleString()]. *)
Variable toLocaleString : N -> string.
(** [new Date(ms).toISOString()]. *)
Variable toISOString : Z -> string.
Variable encodeURIComponent : string -> string.
(** The day [DEFAULT_ONLY_MAINTAINED_MONTHS] months before the given
    instant, as [YYYY-MM-DD]. *)
Variable maintainedSince : Z -> string.
(** [JSON.parse] of a request: [None] when it throws. *)
Variable JSON_parse : string -> option Job.
Variable TAVILY_API_KEY : string.
Variable GITHUB_TOKEN : option string.
Variable RESULT_TTL_SECONDS : Z.
(** The backend's deadline. *)
Variable SEARCH_TIMEOUT_MS : Z.
(** [JSON.parse] of a worker's document: [None] when it throws. *)
Variable JSON_parse_result : string -> option ResultEnvelope.
(** What a call to the store takes on top of the time it blocks. *)
Variable latency : Z.
Variable JOB_TTL_SECONDS : Z.
Variable DEFAULT_RESULT_LIMIT : Z.
(** [JSON.stringify] of the request [{ id, requestedAt, payload }]. *)
Variable JSON_stringify : string -> string -> SearchFilters -> string.
Variable FAVORITES_LIMIT : Z.
(** A favorite as [JSON.parse] returns it; [None] when it throws or
    returns a falsy value. *)
Variable Favorite : Type.
Variable JSON_parse_favorite : string -> option Favorite.

(** [repo.pushed_at ?? repo.updated_at]. *)
Definition updatedAt (repo : Repo) : option string :=
  match pushed_at repo with
  | Some s => Some s
  | None => updated_at repo
  end.

Definition daysSince (now : Z) (repo : Repo) : days :=
  if Js.truthy_opt (updatedAt repo)
  then match updatedAt repo with
       | Some s =>
           match Date_getTime s with
           | Some t => Finite (roundDays (now - t))
           | None => NaN
           end
       | None => PosInf
       end
  else PosInf.

(** [Math.log10(n + 1)] for a counter [n]. *)
Definition log10p1 (n : N) : double := Math_log10 (count n + Double.ofZ 1)%D.

(** The unrounded score of [normalizeRepo]. *)
Definition rawScore (now : Z) (repo : Repo) : double :=
  let starScore := (log10p1 (stargazers_count repo) * Double.decimal 25 10)%D in
  let forkScore := (log10p1 (forks_count repo) * Double.decimal 15 10)%D in
  let watcherScore := log10p1 (watchers_count repo) in
  let issuePenalty := log10p1 (open_issues_count repo) in
  (starScore + forkScore + watcherScore
   + freshnessScore (daysSince now repo) - issuePenalty)%D.

(** [repo.license?.spdx_id]. *)
Definition license_spdx (repo : Repo) : option string :=
  match repo_license repo with Some l => spdx_id l | None => None end.

(** The array of reasons before [filter(Boolean)]. *)
Definition reasonSlots (now : Z) (repo : Repo) : list (option string) :=
  [ if (stargazers_count repo =? 0)%N then None
    else Some (toLocaleString (stargazers_count repo) +:+ " stars");
    if (forks_count repo =? 0)%N then None
    else Some (toLocaleString (forks_count repo) +:+ " forks");
    Some (describeFreshness (daysSince now repo));
    if Js.truthy_opt (license_spdx repo)
    then match license_spdx repo with
         | Some s => Some ("License: " +:+ s)
         | None => None
         end
    else None ].

(** [normalizeRepo]; [now] is [Date.now()]. *)
Definition normalizeRepo (now : Z) (repo : Repo) : Project :=
  {| id := repo_id repo;
     name := full_name repo;
     url := html_url repo;
     description := cleanDescription (repo_description repo);
     homepage := repo_homepage repo;
     stars := stargazers_count repo;
     forks := forks_count repo;
     watchers := watchers_count repo;
     openIssues := open_issues_count repo;
     language := repo_language repo;
     topics := match repo_topics repo with Some t => t | None => [] end;
     license :=
       match repo_license repo with
       | Some l =>
           match spdx_id l with
           | Some s => Some s
           | None => license_name l
           end
       | None => None
       end;
     lastPushedAt := updatedAt repo;
     daysSinceUpdate := daysSince now repo;
     owner := repo_owner repo;
     defaultBranch := default_branch repo;
     score := toFixed2 (rawScore now repo);
     reasons := Js.filterBoolean (reasonSlots now repo) |}.

Definition hasTavily : bool := Js.truthy TAVILY_API_KEY.

(** [buildGitHubQuery]: the terms of the query, before they are joined. *)
Definition querySegments (now : Z) (payload : SearchFilters) : list string :=
  let quotedTopic :=
    if Js.includes_space (topic payload)
    then Js.dquote +:+ topic payload +:+ Js.dquote
    else topic payload in
  [quotedTopic +:+ " in:name,description,readme"]
  ++ (if Js.truthy_opt (languageFilter payload)
      then match languageFilter payload with
           | Some l => ["language:" +:+ l]
           | None => []
           end
      else [])
  ++ match minStars payload with
     | Some n => if 0 <? n then ["stars:>=" +:+ pretty n] else []
     | None => []
     end
  ++ (if onlyMaintained payload
      then ["pushed:>=" +:+ maintainedSince now]
      else []).

Definition buildGitHubQuery (now : Z) (payload : SearchFilters) : string :=
  let query := Js.join " " (querySegments now payload) in
  "https://api.github.com/search/repositories?q=" +:+ encodeURIComponent query
  +:+ "&sort=stars&order=desc&per_page=" +:+ pretty (Z.min (limit payload * 2) 50).

(** The comparator [(a, b) => b.score - a.score]. *)
Definition byScoreDesc (a b : Project) : Z := score b - score a.

(** [Array.prototype.sort] with a comparator: a stable sort; an element
    moves behind another only when the comparator is positive. *)
Fixpoint insertSorted {A} (cmp : A -> A -> Z) (x : A) (l : list A) : list A :=
  match l with
  | [] => [x]
  | y :: r => if 0 <? cmp x y then y :: insertSorted cmp x r else x :: y :: r
  end.

Fixpoint sort {A} (cmp : A -> A -> Z) (l : list A) : list A :=
  match l with
  | [] => []
  | x :: r => insertSorted cmp x (sort cmp r)
  end.

Record FetchResult := mkFetchResult {
  fr_filters : SearchFilters;
  fr_totalFetched : nat;
  fr_projects : list Project
}.

(** [fetchRepositories], from the parsed response on: normalize, rank,
    truncate. *)
Definition rankRepositories (now : Z) (payload : SearchFilters)
    (items : list Repo) : FetchResult :=
  let normalized := map (normalizeRepo now) items in
  let sorted := sort byScoreDesc normalized in
  {| fr_filters := payload;
     fr_totalFetched := length items;
     fr_projects := Js.slice0 sorted (limit payload) |}.

(** [fetchRepositories]: the message of the error thrown, or the result. *)
Definition fetchRepositories (w : World) (payload : SearchFilters)
    : string + FetchResult :=
  match github w (buildGitHubQuery (Date_now w) payload) with
  | GhThrows message => inl message
  | GhHttp status body items =>
      if negb (response_ok status) then
        if status =? 403 then
          inl ("GitHub rate limit exceeded. " +:+
               (if Js.truthy_opt GITHUB_TOKEN
                then "Consider waiting before retrying."
                else "Set GITHUB_TOKEN for higher limits."))
        else inl ("GitHub search failed (" +:+ pretty status +:+ "): " +:+ body)
      else
        inr (rankRepositories (Date_now w) payload
               (match items with Some l => l | None => [] end))
  end.

(** [summarizeResult]: the distinct truthy languages, in order of first
    occurrence. *)
Definition summaryLanguages (projects : list Project) : list string :=
  Js.setFrom [] (Js.filterBoolean (map language projects)).

(** [summarizeResult]: the reasons joined into the highlights. *)
Definition summaryHighlights (projects : list Project) : list string :=
  take 3 (flat_map (fun project => take 1 (reasons project)) projects).

Definition summarizeResult (payload : SearchFilters) (projects : list Project)
    : string :=
  match projects with
  | [] =>
      "No repositories matched " +:+ Js.dquote +:+ topic payload +:+ Js.dquote
      +:+ " with the current filters."
  | _ :: _ =>
      let languages := summaryLanguages projects in
      let topReasons := Js.join ", " (summaryHighlights projects) in
      let languageSummary :=
        match languages with
        | [] => ""
        | _ :: _ => " Focused languages: " +:+ Js.join ", " languages +:+ "."
        end in
      let reasonSummary :=
        if Js.truthy topReasons then " Highlights: " +:+ topReasons +:+ "." else "" in
      let maintained :=
        if onlyMaintained payload then " that are actively maintained" else "" in
      "Found " +:+ pretty (length projects) +:+ " standout open-source project(s)"
      +:+ maintained +:+ " for " +:+ Js.dquote +:+ topic payload +:+ Js.dquote
      +:+ "." +:+ languageSummary +:+ reasonSummary
  end.

(** [needsDescription]. *)
Definition needsDescription (project : Project) : bool :=
  let value := Js.toLowerCase (Js.trim (description project)) in
  (negb (Js.truthy value)
   || bool_decide (value = "null")
   || bool_decide (value = "undefined")
   || Js.startsWith "no description" value)%bool.

(** The [query] of [fetchDescriptionFromTavily]. *)
Definition tavilyQuery (project : Project) (topic : string) : string :=
  name project +:+ " GitHub open-source project for " +:+ topic +:+ " summary".

(** [fetchDescriptionFromTavily]: the description found ([None] is
    [null]) and what was logged. [i] is the candidate's position. *)
Definition fetchDescriptionFromTavily (w : World) (i : nat) (project : Project)
    (topic : string) : option string * list LogEntry :=
  if (negb hasTavily || negb (Js.truthy (name project)))%bool then (None, [])
  else
    let query := tavilyQuery project topic in
    match tavily w i query with
    | TvThrows message =>
        (None, [ConsoleWarn "[worker] Tavily description fetch failed"])
    | TvHttp status text payload =>
        if negb (response_ok status)
        then (None, [ConsoleWarn "[worker] Tavily description fetch failed"])
        else
          match payload with
          | None => (None, [ConsoleWarn "[worker] Tavily description fetch failed"])
          | Some p =>
              let answer := Js.trim <$> answer p in
              if Js.truthy_opt answer then (answer, [])
              else
                match List.find Js.truthy_opt (results p) with
                | Some (Some content) => (Some (Js.trim content), [])
                | _ => (None, [])
                end
          end
    end.

(** [project.description = description]. *)
Definition setDescription (d : string) (project : Project) : Project :=
  {| id := id project; name := name project; url := url project;
     description := d;
     homepage := homepage project; stars := stars project;
     forks := forks project; watchers := watchers project;
     openIssues := openIssues project; language := language project;
     topics := topics project; license := license project;
     lastPushedAt := lastPushedAt project;
     daysSinceUpdate := daysSinceUpdate project;
     owner := owner project; defaultBranch := defaultBranch project;
     score := score project; reasons := reasons project |}.

(** The body of the enrichment loop of [handleJob] for one candidate. *)
Definition enrichProject (w : World) (topic : string) (i : nat)
    (project : Project) : Project * list LogEntry :=
  if negb (needsDescription project) then (project, [])
  else
    let '(found, logged) := fetchDescriptionFromTavily w i project topic in
    match found with
    | Some d =>
        if Js.truthy d then (setDescription d project, logged)
        else (project, logged)
    | None => (project, logged)
    end.

(** The enrichment loop, from position [i] on. *)
Fixpoint enrichFrom (w : World) (topic : string) (i : nat)
    (projects : list Project) : list Project * list LogEntry :=
  match projects with
  | [] => ([], [])
  | project :: rest =>
      let '(project', logged) := enrichProject w topic i project in
      let '(rest', logged') := enrichFrom w topic (S i) rest in
      (project' :: rest', logged ++ logged')
  end.

Definition resultKeyOf (id : string) : string := RESULT_PREFIX +:+ ":" +:+ id.
Definition metaKeyOf (id : string) : string := JOB_METADATA_PREFIX +:+ ":" +:+ id.

(** [redis.set(metaKey, ..., "EX", RESULT_TTL_SECONDS)]. *)
Definition setMeta (id : string) (st : JobStatus) (r : Redis) : Redis :=
  {| requests := requests r;
     resultQueues := resultQueues r;
     jobMeta := <[metaKeyOf id := st]> (jobMeta r);
     ttl := <[metaKeyOf id := RESULT_TTL_SECONDS]> (ttl r) |}.

(** [redis.rpush(resultKey, ...)] then [expire(resultKey, ...)]. *)
Definition rpushResult (id : string) (e : ResultEnvelope) (r : Redis) : Redis :=
  {| requests := requests r;
     resultQueues :=
       <[resultKeyOf id := default [] (resultQueues r !! resultKeyOf id) ++ [e]]>
         (resultQueues r);
     jobMeta := jobMeta r;
     ttl := <[resultKeyOf id := RESULT_TTL_SECONDS]> (ttl r) |}.

(** The [multi()] batch that publishes a result and the terminal status. *)
Definition publish (id : string) (e : ResultEnvelope) (st : JobStatus)
    (r : Redis) : Redis :=
  setMeta id st (rpushResult id e r).

(** The envelope [handleJob] builds, and what its pipeline logs. *)
Definition jobResult (w : World) (payload : SearchFilters)
    : ResultEnvelope * list LogEntry :=
  match fetchRepositories w payload with
  | inr fetched =>
      let '(projects, logged) :=
        if hasTavily
        then enrichFrom w (topic payload) 0 (fr_projects fetched)
        else (fr_projects fetched, []) in
      let summary := summarizeResult payload projects in
      (Completed summary payload (fr_totalFetched fetched) projects
         (toISOString (Date_now w)), logged)
  | inl message => (Failed message payload, [])
  end.

(** [handleJob]. *)
Definition handleJob (w : World) (id : string) (payload : SearchFilters)
    (s : Worker) : Worker :=
  let now := toISOString (Date_now w) in
  let r1 := setMeta id (StProcessing now now (topic payload)) (redis s) in
  match jobResult w payload with
  | (Completed summary filters totalFetched projects generatedAt as result, logged) =>
      {| redis := publish id result (StCompleted now totalFetched) r1;
         console := console s ++ logged |}
  | (Failed message filters as result, logged) =>
      {| redis := publish id result (StError message now) r1;
         console := console s ++ logged
                    ++ [ConsoleError ("[worker] Job " +:+ id +:+ " failed:")] |}
  end.

(** One turn of the loop of [workForever] on a dequeued request. *)
Definition processRequest (w : World) (raw : string) (s : Worker) : Worker :=
  match JSON_parse raw with
  | None =>
      {| redis := redis s;
         console := console s ++ [ConsoleError "[worker] Failed to parse job payload"] |}
  | Some job =>
      match job_id job, job_payload job with
      | Some id, Some payload =>
          if Js.truthy id then handleJob w id payload s
          else {| redis := redis s;
                  console := console s ++ [ConsoleWarn "[worker] Ignoring malformed job"] |}
      | _, _ =>
          {| redis := redis s;
             console := console s ++ [ConsoleWarn "[worker] Ignoring malformed job"] |}
      end
  end.

(** [redis.blpop(REQUEST_QUEUE, 0)]: the head of the request queue, when
    there is one; the call blocks otherwise. *)
Definition blpop (s : Worker) : option (string * Worker) :=
  match requests (redis s) with
  | [] => None
  | raw :: rest =>
      Some (raw,
            {| redis := {| requests := rest;
                           resultQueues := resultQueues (redis s);
                           jobMeta := jobMeta (redis s);
                           ttl := ttl (redis s) |};
               console := console s |})
  end.

(** [workForever]: one turn of the loop per world in [ws], until the
    request queue is empty and the dequeue blocks. *)
Fixpoint workForever (ws : list World) (s : Worker) : Worker :=
  match ws with
  | [] => s
  | w :: ws' =>
      match blpop s with
      | None => s
      | Some (raw, s') => workForever ws' (processRequest w raw s')
      end
  end.

(** The two optional clauses of the sentence, after the closing dot. *)
Definition languageClause (projects : list Project) : string :=
  match summaryLanguages projects with
  | [] => ""
  | _ :: _ =>
      " Focused languages: " +:+ Js.join ", " (summaryLanguages projects) +:+ "."
  end.

Definition highlightsClause (projects : list Project) : string :=
  if Js.truthy (Js.join ", " (summaryHighlights projects))
  then " Highlights: " +:+ Js.join ", " (summaryHighlights projects) +:+ "."
  else "".

(** *** The backend's await loop *)

(** [blockingRedis.brpop(resultQueue, timeoutSeconds)] issued at [now]:
    the element popped ([None] is a null reply after the timeout) and the
    instant of the reply. *)
Definition brpop (now timeoutSeconds : Z) (arrival : option Arrival)
    : option string * Z :=
  match arrival with
  | Some a =>
      if pushedAt a <? now + 1000 * timeoutSeconds
      then (Some (raw a), Z.max now (pushedAt a) + latency)
      else (None, now + 1000 * timeoutSeconds + latency)
  | None => (None, now + 1000 * timeoutSeconds + latency)
  end.

(** The loop of [waitForResult]; [now] is [Date.now()] when the loop
    condition is evaluated. The outcome comes with the instant at which
    the call settles. *)
Fixpoint waitLoop (fuel : nat) (deadline now : Z) (arrival : option Arrival)
    : option (WaitOutcome * Z) :=
  match fuel with
  | O => None
  | S fuel' =>
      if now <? deadline then
        let remainingSeconds := Z.max 1 (ceilSeconds (deadline - now)) in
        match brpop now remainingSeconds arrival with
        | (None, now') => waitLoop fuel' deadline now' arrival
        | (Some raw, now') =>
            match JSON_parse_result raw with
            | Some parsed => Some (Returned parsed, now')
            | None => Some (MalformedData, now')
            end
        end
      else Some (TimedOut, now)
  end.

(** [waitForResult], called at [start]. *)
Definition waitForResult (fuel : nat) (start : Z) (arrival : option Arrival)
    : option (WaitOutcome * Z) :=
  waitLoop fuel (start + SEARCH_TIMEOUT_MS) start arrival.

(** *** Vocabulary of the properties *)


(** A reply of the enrichment source that brings no description: the
    request fails, the status is not a success, the body is not JSON, or
    the payload has neither an answer nor a result with content. *)
Definition noDescription (r : TavilyReply) : bool :=
  match r with
  | TvThrows _ => true
  | TvHttp status _ payload =>
      (negb (response_ok status)
       || match payload with
          | None => true
          | Some p =>
              negb (Js.truthy_opt (Js.trim <$> answer p))
              && forallb (fun c => negb (Js.truthy_opt c)) (results p)
          end)%bool
  end.

(** A candidate after enrichment: itself, or itself with a new, non-empty
    description. *)
Definition enrichedFrom (p p' : Project) : Prop :=
  p' = p \/ exists d, Js.truthy d = true /\ p' = setDescription d p.

(** A request the loop drops: it does not parse, or it lacks a (truthy)
    [id] or a [payload]. *)
Definition malformed (raw : string) : Prop :=
  match JSON_parse raw with
  | None => True
  | Some job =>
      job_id job = None \/ job_id job = Some "" \/ job_payload job = None
  end.

(** The store after the head of the request queue is taken. *)
Definition dequeued (r : Redis) : Redis :=
  {| requests := tail (requests r);
     resultQueues := resultQueues r;
     jobMeta := jobMeta r;
     ttl := ttl r |}.

(** The candidates [handleJob] publishes for a fetched result, and what
    their enrichment logs. *)
Definition selected (w : World) (payload : SearchFilters) (fetched : FetchResult)
    : list Project * list LogEntry :=
  if hasTavily
  then enrichFrom w (topic payload) 0 (fr_projects fetched)
  else (fr_projects fetched, []).

(** No result reaches the result queue before the instant [t]. *)
Definition noResultBefore (t : Z) (arrival : option Arrival) : Prop :=
  match arrival with
  | None => True
  | Some a => t <= pushedAt a
  end.

(** *** The backend's action *)








(** The identifier of a request the loop serves; [None] for one it drops. *)
Definition requestId (raw : string) : option string :=
  match JSON_parse raw with
  | Some job =>
      match job_id job, job_payload job with
      | Some id, Some _ => if Js.truthy id then Some id else None
      | _, _ => None
      end
  | None => None
  end.

(** [trimStart] on the list of the characters of a string. *)
Fixpoint dropSpaces (l : list ascii) : list ascii :=
  match l with
  | [] => []
  | c :: r => if Ascii.is_space c then dropSpaces r else l
  end.

(** *** The dashboard's history *)

(** The state update of [storeSearchResult] and of [handleDropResult]. *)
Definition storeSearch (normalized : SearchResult) (prev : AgentState) : AgentState :=
  let nextSearches :=
    normalized
    :: filter (fun entry => sr_jobId entry <> sr_jobId normalized) (searches prev) in
  {| searches := Js.slice0 nextSearches 6;
     activeJobId := Some (sr_jobId normalized) |}.

(** The state update of [setActiveSearch]. *)
Definition setActiveSearch (jobId : string) (prev : AgentState) : AgentState :=
  let trimmed := Js.trim jobId in
  if negb (Js.truthy trimmed) then prev
  else
    let exists_ :=
      existsb (fun entry => bool_decide (sr_jobId entry = trimmed)) (searches prev) in
    if (negb exists_ || bool_decide (activeJobId prev = Some trimmed))%bool then prev
    else {| searches := searches prev; activeJobId := Some trimmed |}.

(** The handler of [focusStoredSearch]: the message of the error thrown,
    or the next state. *)
Definition focusStoredSearch (jobId : string) (st : AgentState) : string + AgentState :=
  let trimmed := Js.trim jobId in
  if negb (Js.truthy trimmed)
  then inl "A non-empty jobId is required to focus a stored search result."
  else if negb (existsb (fun entry => bool_decide (sr_jobId entry = trimmed))
                  (searches st))
  then inl ("Unable to focus job " +:+ Js.dquote +:+ trimmed +:+ Js.dquote
            +:+ " because it is not in the stored search history.")
  else inr (setActiveSearch trimmed st).

(** *** The favorites route *)

(** The [multi()] batch of [POST]: [LREM key 0 serialized], [LPUSH],
    [LTRIM key 0 (FAVORITES_LIMIT - 1)], on the list of favorites. *)
Definition storeFavorite (serialized : string) (favorites : list string)
    : list string :=
  lrange0 (serialized :: filter (fun entry => entry <> serialized) favorites)
    (FAVORITES_LIMIT - 1).

(** [Math.min(Number(limitParam ?? FAVORITES_LIMIT) || FAVORITES_LIMIT, 12)]:
    the parameter is absent ([None]), not a number ([Some None]) or an
    integer. *)
Definition favoritesLimit (limitParam : option (option Z)) : Z :=
  let n :=
    match limitParam with
    | None => Some FAVORITES_LIMIT
    | Some n => n
    end in
  Z.min (match n with
         | Some k => if k =? 0 then FAVORITES_LIMIT else k
         | None => FAVORITES_LIMIT
         end) 12.

(** The favorites [GET] returns. *)
Definition loadFavorites (limitParam : option (option Z)) (favorites : list string)
    : list Favorite :=
  omap JSON_parse_favorite (lrange0 favorites (favoritesLimit limitParam - 1)).

(** The invariant of the dashboard's history: the stored searches have
    different identifiers, there are at most six, and the active one is
    among them. *)
Definition historyOk (st : AgentState) : Prop :=
  NoDup (sr_jobId <$> searches st)
  /\ (length (searches st) <= 6)%nat
  /\ (forall j, activeJobId st = Some j -> j ∈ sr_jobId <$> searches st).

(** The newest entry first, the older ones with another key behind it,
    [n] entries at most. *)
Definition remembered {A} (key : A -> string) (x : A) (l : list A) (n : nat)
    : list A :=
  take n (x :: filter (fun e => key e <> key x) l).

(** *** The project card *)


(** * Properties *)

(** Facts about functions that do not use the runtime are proved without
    it in the context. *)
Local Ltac pure :=
  clear Date_getTime Math_log10 toLocaleString toISOString encodeURIComponent
    maintainedSince JSON_parse TAVILY_API_KEY GITHUB_TOKEN RESULT_TTL_SECONDS
    SEARCH_TIMEOUT_MS JSON_parse_result latency JOB_TTL_SECONDS
    DEFAULT_RESULT_LIMIT JSON_stringify FAVORITES_LIMIT JSON_parse_favorite.

(** ** Freshness buckets *)

Lemma truthy_app_r (s t : string) : Js.truthy t = true -> Js.truthy (s +:+ t) = true.
Proof. pure. destruct s; simpl; [tauto | reflexivity]. Qed.

Lemma truthy_app_l (s t : string) : Js.truthy s = true -> Js.truthy (s +:+ t) = true.
Proof. destruct s; simpl; [discriminate | reflexivity]. Qed.

Lemma describeFreshness_truthy (d : days) : Js.truthy (describeFreshness d) = true.
Proof.
  destruct d as [n| |]; simpl; try reflexivity.
  repeat (case_match; try reflexivity).
Qed.

(** C6 (amended): the freshness reason is fixed by the buckets at most 7,
    30, 90, 180, 365 days and beyond, each bound belonging to the bucket it
    names, with the three middle buckets worded "activity within the last
    quarter / six months / year"; a non-finite value gives "unknown
    activity". *)
Theorem C6_describeFreshness_buckets (n : Z) :
  (n <= 7 -> describeFreshness (Finite n) = "updated this week")
  /\ (7 < n <= 30 -> describeFreshness (Finite n) = "updated this month")
  /\ (30 < n <= 90 ->
      describeFreshness (Finite n) = "activity within the last quarter")
  /\ (90 < n <= 180 ->
      describeFreshness (Finite n) = "activity within the last six months")
  /\ (180 < n <= 365 ->
      describeFreshness (Finite n) = "activity within the last year")
  /\ (365 < n ->
      describeFreshness (Finite n) = "no recent commits in the last year")
  /\ describeFreshness PosInf = "unknown activity"
  /\ describeFreshness NaN = "unknown activity".
Proof.
  unfold describeFreshness.
  repeat split; try reflexivity; intros H;
    repeat (match goal with
            | |- context [?a <=? ?b] =>
                destruct (Z.leb_spec a b); try lia
            end); reflexivity.
Qed.

(** ** Reasons *)

(** C10: the reasons of a normalized candidate are never empty: they are
    the star reason (when the count is not zero), the fork reason (when
    the count is not zero), the freshness reason (always, "unknown
    activity" included) and the license reason (when there is an SPDX
    identifier), in this order. *)
Theorem C10_reasons_nonempty (now : Z) (repo : Repo) :
  let p := normalizeRepo now repo in
  reasons p =
    (if (stargazers_count repo =? 0)%N then []
     else [toLocaleString (stargazers_count repo) +:+ " stars"])
    ++ (if (forks_count repo =? 0)%N then []
        else [toLocaleString (forks_count repo) +:+ " forks"])
    ++ [describeFreshness (daysSinceUpdate p)]
    ++ (if Js.truthy_opt (license_spdx repo)
        then ["License: " +:+ default "" (license_spdx repo)] else [])
  /\ describeFreshness (daysSinceUpdate p) ∈ reasons p
  /\ reasons p <> []
  /\ (stargazers_count repo = 0%N -> forks_count repo = 0%N ->
      Js.truthy_opt (license_spdx repo) = false ->
      reasons p = [describeFreshness (daysSinceUpdate p)]).
Proof.
  intros p.
  assert (E : reasons p =
    (if (stargazers_count repo =? 0)%N then []
     else [toLocaleString (stargazers_count repo) +:+ " stars"])
    ++ (if (forks_count repo =? 0)%N then []
        else [toLocaleString (forks_count repo) +:+ " forks"])
    ++ [describeFreshness (daysSinceUpdate p)]
    ++ (if Js.truthy_opt (license_spdx repo)
        then ["License: " +:+ default "" (license_spdx repo)] else [])).
  { subst p. cbn [reasons normalizeRepo daysSinceUpdate]. unfold reasonSlots.
    cbn [Js.filterBoolean].
    rewrite describeFreshness_truthy.
    destruct (stargazers_count repo =? 0)%N;
      destruct (forks_count repo =? 0)%N;
      rewrite ?truthy_app_r by reflexivity;
      destruct (license_spdx repo) as [s|] eqn:L; cbn [Js.truthy_opt];
      try (destruct (Js.truthy s) eqn:T; cbn [default];
           rewrite ?truthy_app_l by reflexivity);
      reflexivity. }
  split; [exact E|]. split; [|split].
  - rewrite E. rewrite !elem_of_app. right. right. left. apply list_elem_of_here.
  - rewrite E. destruct (stargazers_count repo =? 0)%N;
      destruct (forks_count repo =? 0)%N; discriminate.
  - intros Hs Hf Hl. rewrite E, Hs, Hf, Hl. reflexivity.
Qed.

(** ** The arithmetic of doubles *)

Lemma one_pos : 0 < Double.one.
Proof. unfold Double.one. apply Z.pow_pos_nonneg; lia. Qed.

Lemma div_le_cross (a1 q1 a2 q2 : Z) :
  0 < q1 -> 0 < q2 -> a1 * q2 <= a2 * q1 -> a1 / q1 <= a2 / q2.
Proof.
  intros H1 H2 H. apply Z.div_le_lower_bound; [lia|].
  pose proof (Z.mul_div_le a1 q1 H1).
  nia.
Qed.

Lemma rne_bounds (p q : Z) : 0 < q -> p / q <= Double.rne p q <= p / q + 1.
Proof.
  intros Hq. unfold Double.rne.
  destruct (2 * (p mod q) <? q); [lia|].
  destruct (q <? 2 * (p mod q)); [lia|].
  destruct (Z.even (p / q)); lia.
Qed.

Lemma rne_mono (p1 q1 p2 q2 : Z) :
  0 < q1 -> 0 < q2 -> p1 * q2 <= p2 * q1 ->
  Double.rne p1 q1 <= Double.rne p2 q2.
Proof.
  intros H1 H2 H.
  pose proof (div_le_cross _ _ _ _ H1 H2 H) as Hf.
  pose proof (rne_bounds p1 q1 H1). pose proof (rne_bounds p2 q2 H2).
  destruct (Z.eq_dec (p1 / q1) (p2 / q2)) as [E|E]; [|lia].
  unfold Double.rne. rewrite <- E.
  pose proof (Z.div_mod p1 q1 ltac:(lia)) as D1.
  pose proof (Z.div_mod p2 q2 ltac:(lia)) as D2.
  pose proof (Z.mod_pos_bound p1 q1 H1). pose proof (Z.mod_pos_bound p2 q2 H2).
  rewrite <- E in D2.
  set (f := p1 / q1) in *. set (r1 := p1 mod q1) in *. set (r2 := p2 mod q2) in *.
  assert (Hr : r1 * q2 <= r2 * q1) by nia.
  destruct (Z.ltb_spec (2 * r1) q1), (Z.ltb_spec (2 * r2) q2);
    destruct (Z.ltb_spec q1 (2 * r1)), (Z.ltb_spec q2 (2 * r2));
    destruct (Z.even f); try lia; nia.
Qed.

Lemma shift_nonneg (a q : Z) : 0 <= Double.shift a q.
Proof. unfold Double.shift. lia. Qed.

Lemma magnitude_nonneg (a q : Z) : 0 <= a -> 0 < q -> 0 <= Double.magnitude a q.
Proof.
  intros Ha Hq. unfold Double.magnitude.
  pose proof (shift_nonneg a q) as Hs.
  assert (0 < 2 ^ Double.shift a q) by (apply Z.pow_pos_nonneg; lia).
  pose proof (rne_bounds a (q * 2 ^ Double.shift a q) ltac:(nia)).
  assert (0 <= a / (q * 2 ^ Double.shift a q)) by (apply Z.div_pos; nia).
  nia.
Qed.

Lemma magnitude_low (a q : Z) :
  0 <= a -> 0 < q -> 1 <= Double.shift a q ->
  2 ^ (52 + Double.shift a q) <= Double.magnitude a q.
Proof.
  intros Ha Hq Hs. unfold Double.magnitude.
  set (s := Double.shift a q) in *.
  assert (Hp : 0 < 2 ^ s) by (apply Z.pow_pos_nonneg; lia).
  pose proof (rne_bounds a (q * 2 ^ s) ltac:(nia)) as Hb.
  rewrite <- Z.div_div in Hb by lia.
  assert (Hl : Z.log2 (a / q) = 52 + s) by (unfold s, Double.shift in *; lia).
  assert (Hn : 0 < a / q).
  { destruct (Z.lt_ge_cases 0 (a / q)) as [|Hle]; [assumption|].
    rewrite (Z.log2_nonpos _ Hle) in Hl. lia. }
  pose proof (Z.log2_spec _ Hn) as [Hlo _]. rewrite Hl in Hlo.
  assert (2 ^ 52 <= a / q / 2 ^ s).
  { apply Z.div_le_lower_bound; [lia|]. rewrite <- Z.pow_add_r by lia.
    replace (s + 52) with (52 + s) by lia. exact Hlo. }
  rewrite Z.pow_add_r by lia. nia.
Qed.

Lemma magnitude_high (a q : Z) :
  0 <= a -> 0 < q -> Double.magnitude a q <= 2 ^ (53 + Double.shift a q).
Proof.
  intros Ha Hq. unfold Double.magnitude.
  set (s := Double.shift a q) in *.
  assert (Hs : 0 <= s) by apply shift_nonneg.
  assert (Hp : 0 < 2 ^ s) by (apply Z.pow_pos_nonneg; lia).
  pose proof (rne_bounds a (q * 2 ^ s) ltac:(nia)) as Hb.
  rewrite <- Z.div_div in Hb by lia.
  assert (Hn : a / q < 2 ^ (53 + s)).
  { destruct (Z.lt_ge_cases 0 (a / q)) as [Hpos|Hle].
    - pose proof (Z.log2_spec _ Hpos) as [_ Hhi].
      eapply Z.lt_le_trans; [exact Hhi|].
      apply Z.pow_le_mono_r; [lia|]. unfold s, Double.shift. lia.
    - assert (0 < 2 ^ (53 + s)) by (apply Z.pow_pos_nonneg; lia). lia. }
  assert (a / q / 2 ^ s < 2 ^ 53).
  { apply Z.div_lt_upper_bound; [lia|]. rewrite <- Z.pow_add_r by lia.
    replace (s + 53) with (53 + s) by lia. exact Hn. }
  rewrite Z.pow_add_r by lia. nia.
Qed.

Lemma magnitude_mono (a1 q1 a2 q2 : Z) :
  0 <= a1 -> 0 < q1 -> 0 < q2 -> a1 * q2 <= a2 * q1 ->
  Double.magnitude a1 q1 <= Double.magnitude a2 q2.
Proof.
  intros Ha H1 H2 H.
  assert (Ha2 : 0 <= a2) by nia.
  pose proof (div_le_cross _ _ _ _ H1 H2 H) as Hn.
  assert (Hs : Double.shift a1 q1 <= Double.shift a2 q2).
  { unfold Double.shift. pose proof (Z.log2_le_mono _ _ Hn). lia. }
  destruct (Z.eq_dec (Double.shift a1 q1) (Double.shift a2 q2)) as [E|E].
  - unfold Double.magnitude. rewrite <- E.
    set (s := Double.shift a1 q1) in *.
    assert (0 < 2 ^ s) by (apply Z.pow_pos_nonneg; [lia|apply shift_nonneg]).
    apply Z.mul_le_mono_nonneg_r; [lia|].
    apply rne_mono; nia.
  - pose proof (shift_nonneg a1 q1).
    pose proof (magnitude_high a1 q1 Ha H1).
    pose proof (magnitude_low a2 q2 Ha2 H2 ltac:(lia)).
    assert (2 ^ (53 + Double.shift a1 q1) <= 2 ^ (52 + Double.shift a2 q2))
      by (apply Z.pow_le_mono_r; lia).
    lia.
Qed.

Lemma round_mono (p1 q1 p2 q2 : Z) :
  0 < q1 -> 0 < q2 -> p1 * q2 <= p2 * q1 ->
  Double.round p1 q1 <= Double.round p2 q2.
Proof.
  intros H1 H2 H. unfold Double.round.
  assert (Hm : forall p q, 0 < q -> 0 <= Double.magnitude (Z.abs p) q)
    by (intros; apply magnitude_nonneg; lia).
  pose proof (Hm p1 q1 H1). pose proof (Hm p2 q2 H2).
  destruct (Z.lt_ge_cases p1 0) as [N1|P1]; destruct (Z.lt_ge_cases p2 0) as [N2|P2].
  - rewrite (Z.sgn_neg p1), (Z.sgn_neg p2) by assumption.
    assert (Z.abs p2 * q1 <= Z.abs p1 * q2)
      by (rewrite !Z.abs_neq by lia; lia).
    pose proof (magnitude_mono (Z.abs p2) q2 (Z.abs p1) q1 ltac:(lia) H2 H1 ltac:(assumption)).
    lia.
  - rewrite (Z.sgn_neg p1) by assumption.
    pose proof (Z.sgn_nonneg p2) as [_ Hs]. specialize (Hs P2). nia.
  - exfalso. nia.
  - assert (Z.abs p1 * q2 <= Z.abs p2 * q1)
      by (rewrite !Z.abs_eq by lia; lia).
    pose proof (magnitude_mono (Z.abs p1) q1 (Z.abs p2) q2 ltac:(lia) H1 H2 ltac:(assumption)).
    destruct (Z.eq_dec p1 0) as [->|]; [simpl; pose proof (Z.sgn_nonneg p2) as [_ Hs]; specialize (Hs P2); nia|].
    assert (0 < p2) by nia.
    rewrite (Z.sgn_pos p1), (Z.sgn_pos p2) by lia. lia.
Qed.

Lemma add_mono (x x' y y' : Z) :
  x <= x' -> y <= y' -> Double.add x y <= Double.add x' y'.
Proof. intros. apply round_mono; lia. Qed.

Lemma sub_mono (x x' y y' : Z) :
  x <= x' -> y' <= y -> Double.sub x y <= Double.sub x' y'.
Proof. intros. apply round_mono; lia. Qed.


Lemma div_mono (x x' y : Z) :
  0 < y -> x <= x' -> Double.div x y <= Double.div x' y.
Proof.
  intros Hy H. unfold Double.div. destruct (Z.eqb_spec y 0); [lia|].
  pose proof one_pos. rewrite Z.sgn_pos, Z.abs_eq by lia.
  apply round_mono; [lia|lia|].
  apply Z.mul_le_mono_nonneg_r; [lia|]. apply Z.mul_le_mono_nonneg_r; lia.
Qed.

Lemma ofZ_mono (n m : Z) : n <= m -> Double.ofZ n <= Double.ofZ m.
Proof.
  intros. pose proof one_pos. apply round_mono; [lia|lia|].
  rewrite !Z.mul_1_r. apply Z.mul_le_mono_nonneg_r; lia.
Qed.

Lemma toFixed2_close (x : Z) :
  2 * Z.abs (100 * x - toFixed2 x * Double.one) <= Double.one.
Proof.
  pose proof one_pos as H1. unfold toFixed2.
  pose proof (Z.div_mod (200 * Z.abs x + Double.one) (2 * Double.one) ltac:(lia)) as D.
  pose proof (Z.mod_pos_bound (200 * Z.abs x + Double.one) (2 * Double.one) ltac:(lia)) as B.
  set (n := (200 * Z.abs x + Double.one) / (2 * Double.one)) in *.
  destruct (Z.lt_trichotomy x 0) as [N|[->|P]].
  - rewrite Z.sgn_neg by assumption. rewrite Z.abs_neq in D, B by lia. nia.
  - rewrite Z.sgn_0. lia.
  - rewrite Z.sgn_pos by assumption. rewrite Z.abs_eq in D, B by lia. nia.
Qed.

Lemma toFixed2_nearest (x n : Z) :
  Z.abs (100 * x - toFixed2 x * Double.one)
  <= Z.abs (100 * x - n * Double.one).
Proof.
  pose proof one_pos. pose proof (toFixed2_close x).
  destruct (Z.eq_dec n (toFixed2 x)) as [->|]; [lia|]. nia.
Qed.

Lemma toFixed2_mono (x y : Z) : x <= y -> toFixed2 x <= toFixed2 y.
Proof.
  intros H. pose proof one_pos as H1. unfold toFixed2.
  assert (Hd : forall a, 0 <= a -> 0 <= (200 * a + Double.one) / (2 * Double.one))
    by (intros; apply Z.div_pos; lia).
  pose proof (Hd (Z.abs x) ltac:(lia)). pose proof (Hd (Z.abs y) ltac:(lia)).
  destruct (Z.lt_ge_cases x 0) as [Nx|Px]; destruct (Z.lt_ge_cases y 0) as [Ny|Py].
  - rewrite !Z.sgn_neg by assumption.
    assert ((200 * Z.abs y + Double.one) / (2 * Double.one)
            <= (200 * Z.abs x + Double.one) / (2 * Double.one))
      by (apply Z.div_le_mono; lia).
    lia.
  - rewrite (Z.sgn_neg x) by assumption.
    pose proof (Z.sgn_nonneg y) as [_ Hs]. specialize (Hs Py).
    assert (0 <= Z.sgn y * ((200 * Z.abs y + Double.one) / (2 * Double.one)))
      by (apply Z.mul_nonneg_nonneg; lia).
    lia.
  - lia.
  - assert ((200 * Z.abs x + Double.one) / (2 * Double.one)
            <= (200 * Z.abs y + Double.one) / (2 * Double.one))
      by (apply Z.div_le_mono; lia).
    pose proof (Z.sgn_nonneg x) as [_ Hs]. specialize (Hs Px).
    destruct (Z.eq_dec x 0) as [->|].
    + rewrite Z.sgn_0, Z.mul_0_l. pose proof (Z.sgn_nonneg y) as [_ Hs'].
      specialize (Hs' Py). apply Z.mul_nonneg_nonneg; lia.
    + rewrite (Z.sgn_pos x), (Z.sgn_pos y) by lia. lia.
Qed.

Lemma max_mono (x y y' : Z) : y <= y' -> Double.max x y <= Double.max x y'.
Proof. unfold Double.max. lia. Qed.

(** ** The score *)

Lemma daysSince_absent (now : Z) (repo : Repo) :
  Js.truthy_opt (updatedAt repo) = false -> daysSince now repo = PosInf.
Proof. intros H. unfold daysSince. rewrite H. reflexivity. Qed.

Lemma daysSince_dated (now t : Z) (repo : Repo) (stamp : string) :
  updatedAt repo = Some stamp -> Js.truthy stamp = true ->
  Date_getTime stamp = Some t ->
  daysSince now repo = Finite (roundDays (now - t)).
Proof.
  intros Hu Hs Ht. unfold daysSince. rewrite Hu. cbn [Js.truthy_opt].
  rewrite Hs, Ht. reflexivity.
Qed.

(** C1: the score of a normalized candidate is the documented sum of the
    raw candidate's counters and age, computed in double precision and
    rounded to two decimals: log10(stars+1) * 2.5 + log10(forks+1) * 1.5
    + log10(watchers+1) + freshness - log10(openIssues+1), where freshness
    is max(0, 3 - daysSinceUpdate/120) for a dated candidate, whose
    daysSinceUpdate is its age in days, and 0 for one without a date (none,
    or an empty one), whose daysSinceUpdate is the infinite sentinel. The
    stored value is the whole number of hundredths nearest to the sum,
    within half a hundredth of it. *)
Theorem C1_normalizeRepo_score (now : Z) (repo : Repo) :
  let p := normalizeRepo now repo in
  let lg (n : N) := Math_log10 (count n + Double.ofZ 1)%D in
  let freshness :=
    match daysSince now repo with
    | Finite d => Double.max 0 (Double.ofZ 3 - Double.ofZ d / Double.ofZ 120)%D
    | _ => 0
    end in
  let sum :=
    (lg (stargazers_count repo) * Double.decimal 25 10
     + lg (forks_count repo) * Double.decimal 15 10
     + lg (watchers_count repo) + freshness
     - lg (open_issues_count repo))%D in
  score p = toFixed2 sum
  /\ 2 * Z.abs (100 * sum - score p * Double.one) <= Double.one
  /\ (forall n, Z.abs (100 * sum - score p * Double.one)
                <= Z.abs (100 * sum - n * Double.one))
  /\ daysSinceUpdate p = daysSince now repo
  /\ (forall stamp t,
        updatedAt repo = Some stamp -> Js.truthy stamp = true ->
        Date_getTime stamp = Some t ->
        daysSince now repo = Finite (roundDays (now - t)))
  /\ (Js.truthy_opt (updatedAt repo) = false ->
      daysSince now repo = PosInf /\ freshness = 0).
Proof.
  intros p lg freshness sum.
  assert (S : score p = toFixed2 sum) by reflexivity.
  split; [exact S|]. rewrite S.
  split; [apply toFixed2_close|]. split; [apply toFixed2_nearest|].
  split; [reflexivity|]. split.
  - intros stamp t. apply daysSince_dated.
  - intros Habs. subst freshness.
    rewrite (daysSince_absent now repo Habs). split; reflexivity.
Qed.

(** ** Ranking *)

Lemma slice0_prefix {A} (l : list A) (e : Z) : Js.slice0 l e `prefix_of` l.
Proof. unfold Js.slice0. destruct (e <? 0); apply prefix_take. Qed.

Lemma slice0_length {A} (l : list A) (e : Z) :
  0 <= e -> (length (Js.slice0 l e) <= Z.to_nat e)%nat.
Proof.
  intros He. unfold Js.slice0. destruct (Z.ltb_spec e 0); [lia|].
  rewrite length_take. lia.
Qed.

Lemma insertSorted_perm (x : Project) (l : list Project) :
  insertSorted byScoreDesc x l ≡ₚ x :: l.
Proof.
  induction l as [|y r IH]; simpl; [reflexivity|].
  destruct (0 <? byScoreDesc x y); [|reflexivity].
  rewrite IH. apply Permutation_swap.
Qed.

Lemma sort_perm (l : list Project) : sort byScoreDesc l ≡ₚ l.
Proof.
  induction l as [|x r IH]; simpl; [reflexivity|].
  rewrite insertSorted_perm, IH. reflexivity.
Qed.

Lemma insertSorted_sorted (x : Project) (l : list Project) :
  StronglySorted scoreGe l -> StronglySorted scoreGe (insertSorted byScoreDesc x l).
Proof.
  induction l as [|y r IH]; intros Hs; simpl.
  - repeat constructor.
  - unfold byScoreDesc at 1. destruct (Z.ltb_spec 0 (score y - score x)) as [Hlt|Hge].
    + inversion Hs as [|? ? Hr Hall]; subst.
      constructor; [apply IH; assumption|].
      apply Forall_forall. intros z Hz.
      rewrite insertSorted_perm in Hz.
      apply elem_of_cons in Hz as [->|Hz]; [unfold scoreGe; lia|].
      rewrite Forall_forall in Hall. apply Hall, Hz.
    + constructor; [assumption|].
      inversion Hs as [|? ? Hr Hall]; subst.
      constructor; [unfold scoreGe; lia|].
      eapply Forall_impl; [exact Hall|]. unfold scoreGe. intros; simpl in *; lia.
Qed.

Lemma sort_sorted (l : list Project) : StronglySorted scoreGe (sort byScoreDesc l).
Proof.
  induction l as [|x r IH]; simpl; [constructor|].
  apply insertSorted_sorted, IH.
Qed.

(** Insertion keeps the new element ahead of the ones with its score. *)
Lemma insertSorted_filter (s : Z) (x : Project) (l : list Project) :
  filter (fun p => score p = s) (insertSorted byScoreDesc x l)
  = filter (fun p => score p = s) (x :: l).
Proof.
  induction l as [|y r IH]; simpl; [reflexivity|].
  unfold byScoreDesc at 1. destruct (Z.ltb_spec 0 (score y - score x)) as [Hlt|Hge];
    [|reflexivity].
  rewrite filter_cons, IH, !filter_cons.
  repeat case_decide; try reflexivity; lia.
Qed.

Lemma sort_stable (s : Z) (l : list Project) :
  filter (fun p => score p = s) (sort byScoreDesc l)
  = filter (fun p => score p = s) l.
Proof.
  induction l as [|x r IH]; simpl; [reflexivity|].
  rewrite insertSorted_filter, !filter_cons, IH. reflexivity.
Qed.

Lemma StronglySorted_lookup (l : list Project) (i j : nat) (a b : Project) :
  StronglySorted scoreGe l ->
  l !! i = Some a -> l !! j = Some b -> (i < j)%nat -> scoreGe a b.
Proof.
  intros Hs. revert i j. induction Hs as [|x r Hr IH Hall]; intros i j Hi Hj Hlt.
  - rewrite lookup_nil in Hi. discriminate.
  - destruct j as [|j]; [lia|]. destruct i as [|i]; simpl in *.
    + injection Hi as <-. rewrite Forall_forall in Hall.
      apply Hall. eapply list_elem_of_lookup_2; eassumption.
    + apply (IH i j); [assumption..|lia].
Qed.

Lemma prefix_filter (P : Project -> Prop) `{!forall p, Decision (P p)}
    (l k : list Project) :
  l `prefix_of` k -> filter P l `prefix_of` filter P k.
Proof. intros [t ->]. rewrite filter_app. apply prefix_app_r. reflexivity. Qed.

(** The ranking does not depend on the sorting algorithm: a descending
    list with the same candidates per score, in the same order, as [l] is
    [sort byScoreDesc l]. *)
Lemma sorted_stable_unique (l1 l2 : list Project) :
  StronglySorted scoreGe l1 -> StronglySorted scoreGe l2 ->
  (forall s : Z, filter (fun p => score p = s) l1 = filter (fun p => score p = s) l2) ->
  l1 = l2.
Proof.
  pure. intros H1. revert l2.
  induction H1 as [|x r1 Hr1 IH Hx]; intros l2 H2 Hf.
  - destruct l2 as [|y r2]; [reflexivity|].
    specialize (Hf (score y)). rewrite filter_cons_True in Hf by reflexivity.
    discriminate.
  - destruct H2 as [|y r2 Hr2 Hy].
    { specialize (Hf (score x)). rewrite filter_cons_True in Hf by reflexivity.
      discriminate. }
    assert (Hxy : score x = score y).
    { assert (x ∈ y :: r2) as Hin.
      { pose proof (Hf (score x)) as E.
        rewrite (filter_cons_True _ x) in E by reflexivity.
        assert (x ∈ filter (fun p => score p = score x) (y :: r2)) as Hm
          by (rewrite <- E; apply list_elem_of_here).
        apply list_elem_of_filter in Hm as [_ Hm]. exact Hm. }
      assert (y ∈ x :: r1) as Hin'.
      { pose proof (Hf (score y)) as E.
        rewrite (filter_cons_True _ y) in E by reflexivity.
        assert (y ∈ filter (fun p => score p = score y) (x :: r1)) as Hm
          by (rewrite E; apply list_elem_of_here).
        apply list_elem_of_filter in Hm as [_ Hm]. exact Hm. }
      rewrite Forall_forall in Hx, Hy. unfold scoreGe in *.
      apply elem_of_cons in Hin as [->|Hin]; [reflexivity|].
      apply elem_of_cons in Hin' as [->|Hin']; [reflexivity|].
      specialize (Hx _ Hin'). specialize (Hy _ Hin). lia. }
    assert (x = y) as ->.
    { pose proof (Hf (score x)) as E.
      rewrite (filter_cons_True _ x) in E by reflexivity.
      rewrite (filter_cons_True _ y) in E by (symmetry; exact Hxy).
      congruence. }
    f_equal. apply IH; [exact Hr2|].
    intros s. specialize (Hf s). rewrite !filter_cons in Hf.
    destruct (decide (score y = s)); congruence.
Qed.

Lemma sort_unique (l out : list Project) :
  StronglySorted scoreGe out ->
  (forall s : Z, filter (fun p => score p = s) out = filter (fun p => score p = s) l) ->
  out = sort byScoreDesc l.
Proof.
  pure. intros Hs Hf. apply sorted_stable_unique; [exact Hs|apply sort_sorted|].
  intros s. rewrite Hf, sort_stable. reflexivity.
Qed.

(** C2: the projects of a result are in descending order of score: of two
    candidates of one result the one with the higher score stands first;
    and candidates with the same score stand in the order in which they
    were fetched. *)
Theorem C2_projects_sorted_stable (now : Z) (payload : SearchFilters)
    (items : list Repo) :
  let out := fr_projects (rankRepositories now payload items) in
  (forall (i j : nat) (a b : Project),
      out !! i = Some a -> out !! j = Some b -> score b < score a -> (i < j)%nat)
  /\ (forall s : Z,
         filter (fun p => score p = s) out
         `prefix_of` filter (fun p => score p = s) (map (normalizeRepo now) items))
  /\ StronglySorted scoreGe out
  /\ out `prefix_of` sort byScoreDesc (map (normalizeRepo now) items)
  /\ sort byScoreDesc (map (normalizeRepo now) items) ≡ₚ map (normalizeRepo now) items.
Proof.
  intros out.
  set (normalized := map (normalizeRepo now) items).
  assert (Hp : out `prefix_of` sort byScoreDesc normalized)
    by apply slice0_prefix.
  assert (Hidx : forall (i j : nat) (a b : Project),
             out !! i = Some a -> out !! j = Some b -> (i < j)%nat -> scoreGe a b).
  { intros i j a b Hi Hj Hlt.
    eapply (StronglySorted_lookup (sort byScoreDesc normalized) i j);
      eauto using sort_sorted, prefix_lookup_Some. }
  split; [|split; [|split; [|split]]].
  - intros i j a b Hi Hj Hlt.
    destruct (Nat.lt_trichotomy i j) as [H|[H|H]]; [exact H| |].
    + subst j. rewrite Hi in Hj. injection Hj as ->. lia.
    + specialize (Hidx j i b a Hj Hi H). unfold scoreGe in Hidx. lia.
  - intros s. rewrite <- (sort_stable s normalized).
    apply prefix_filter, Hp; apply _.
  - destruct Hp as [t Ht]. pose proof (sort_sorted normalized) as Hs.
    rewrite Ht in Hs. apply StronglySorted_app_1_l in Hs. exact Hs.
  - exact Hp.
  - apply sort_perm.
Qed.

(** ** The summary sentence *)

Lemma setFrom_spec (seen l : list string) :
  NoDup seen ->
  NoDup (Js.setFrom seen l)
  /\ (forall x, x ∈ Js.setFrom seen l <-> x ∈ seen \/ x ∈ l)
  /\ seen `prefix_of` Js.setFrom seen l.
Proof.
  pure.
  revert seen. induction l as [|y r IH]; intros seen Hnd; simpl.
  - split; [assumption|]. split; [|reflexivity].
    intros x. rewrite elem_of_nil. tauto.
  - case_bool_decide as Hy.
    + destruct (IH seen Hnd) as (H1 & H2 & H3). split; [assumption|].
      split; [|assumption].
      intros x. rewrite H2, elem_of_cons.
      split; [tauto|]. intros [?|[->|?]]; tauto.
    + assert (Hnd' : NoDup (seen ++ [y])).
      { apply NoDup_app. split; [assumption|]. split; [|apply NoDup_singleton].
        intros x Hx Hx'. apply list_elem_of_singleton in Hx'. subst. tauto. }
      destruct (IH (seen ++ [y]) Hnd') as (H1 & H2 & H3). split; [assumption|].
      split.
      * intros x. rewrite H2, elem_of_app, list_elem_of_singleton, elem_of_cons. tauto.
      * eapply prefix_app_l. exact H3.
Qed.

Lemma filterBoolean_spec (l : list (option string)) (x : string) :
  x ∈ Js.filterBoolean l <-> x <> "" /\ Some x ∈ l.
Proof.
  pure.
  induction l as [|[s|] r IH]; simpl.
  - rewrite !elem_of_nil. tauto.
  - destruct s as [|c s]; simpl.
    + rewrite IH, elem_of_cons. split; [tauto|].
      intros [Hx [Hs|Hr]]; [congruence|tauto].
    + rewrite !elem_of_cons, IH. split.
      * intros [->|[? ?]]; split; auto; discriminate.
      * intros [Hx [Hs|Hr]]; [left; congruence|tauto].
  - rewrite IH, elem_of_cons. split; [tauto|].
    intros [Hx [Hs|Hr]]; [discriminate|tauto].
Qed.

Lemma prefix_app_same (a b c : string) :
  String.prefix (a +:+ b) (a +:+ c) = String.prefix b c.
Proof.
  induction a as [|ch a IH]; [reflexivity|].
  change (String ch a +:+ b) with (String ch (a +:+ b)).
  change (String ch a +:+ c) with (String ch (a +:+ c)).
  simpl. destruct (ascii_dec ch ch); [exact IH|congruence].
Qed.

Lemma prefix_app_self (a c : string) : String.prefix a (a +:+ c) = true.
Proof.
  induction a as [|ch a IH]; [destruct c; reflexivity|].
  change (String ch a +:+ c) with (String ch (a +:+ c)).
  simpl. destruct (ascii_dec ch ch); [exact IH|congruence].
Qed.

Lemma app_assoc_string (a b c : string) : (a +:+ b) +:+ c = a +:+ (b +:+ c).
Proof.
  induction a as [|ch a IH]; [reflexivity|].
  change (String ch a +:+ b) with (String ch (a +:+ b)).
  change (String ch (a +:+ b) +:+ c) with (String ch ((a +:+ b) +:+ c)).
  change (String ch a +:+ (b +:+ c)) with (String ch (a +:+ (b +:+ c))).
  f_equal. exact IH.
Qed.

(** C9 (amended): for an empty list the sentence says that nothing matched
    the topic with the current filters; otherwise it gives the number of
    projects, the words "that are actively maintained" exactly when
    [onlyMaintained] was requested, the distinct non-empty primary
    languages (when there is one), and as highlights the first reasons of
    the first three candidates that have one, repeated when they
    coincide. *)
Theorem C9_summarizeResult (payload : SearchFilters) (projects : list Project) :
  (projects = [] ->
   summarizeResult payload projects
   = "No repositories matched " +:+ Js.dquote +:+ topic payload +:+ Js.dquote
     +:+ " with the current filters.")
  /\ (projects <> [] ->
      summarizeResult payload projects
      = "Found " +:+ pretty (length projects)
        +:+ " standout open-source project(s)"
        +:+ (if onlyMaintained payload then " that are actively maintained" else "")
        +:+ " for " +:+ Js.dquote +:+ topic payload +:+ Js.dquote +:+ "."
        +:+ languageClause projects +:+ highlightsClause projects
      /\ Js.startsWith
           ("Found " +:+ pretty (length projects)
            +:+ " standout open-source project(s) that are actively maintained")
           (summarizeResult payload projects)
         = onlyMaintained payload)
  /\ NoDup (summaryLanguages projects)
  /\ (forall x, x ∈ summaryLanguages projects
                <-> x <> "" /\ exists p, p ∈ projects /\ language p = Some x)
  /\ summaryHighlights projects
     = take 3 (flat_map (fun p => take 1 (reasons p)) projects)
  /\ (length (summaryHighlights projects) <= 3)%nat
  /\ (forall r, r ∈ summaryHighlights projects
                -> exists p, p ∈ projects /\ head (reasons p) = Some r).
Proof.
  pure.
  split; [intros ->; reflexivity|].
  split; [|split; [|split; [|split; [reflexivity|split]]]].
  - intros Hne. destruct projects as [|p0 ps]; [congruence|].
    assert (E : summarizeResult payload (p0 :: ps)
      = "Found " +:+ pretty (length (p0 :: ps))
        +:+ " standout open-source project(s)"
        +:+ (if onlyMaintained payload then " that are actively maintained" else "")
        +:+ " for " +:+ Js.dquote +:+ topic payload +:+ Js.dquote +:+ "."
        +:+ languageClause (p0 :: ps) +:+ highlightsClause (p0 :: ps)).
    { unfold summarizeResult, languageClause, highlightsClause.
      destruct (summaryLanguages (p0 :: ps)); reflexivity. }
    split; [exact E|].
    rewrite E. unfold Js.startsWith.
    rewrite prefix_app_same, prefix_app_same.
    destruct (onlyMaintained payload).
    + rewrite <- app_assoc_string. apply prefix_app_self.
    + reflexivity.
  - apply (setFrom_spec [] _ (NoDup_nil_2)).
  - intros x. unfold summaryLanguages.
    destruct (setFrom_spec [] (Js.filterBoolean (map language projects))
                (NoDup_nil_2)) as (_ & H & _).
    rewrite H, filterBoolean_spec, elem_of_nil.
    change (map language projects) with (language <$> projects).
    rewrite list_elem_of_fmap. split.
    + intros [[]|[Hx (p & Hp & Hin)]]. split; [assumption|]. exists p. auto.
    + intros [Hx (p & Hin & Hp)]. right. split; [assumption|]. exists p. auto.
  - unfold summaryHighlights. rewrite length_take. lia.
  - intros r Hr. unfold summaryHighlights in Hr.
    pose proof (elem_of_prefix _ _ _ Hr (prefix_take _ _)) as Hr'.
    apply list_elem_of_In, in_flat_map in Hr' as (p & Hp & Hin).
    exists p. split; [apply list_elem_of_In, Hp|].
    destruct (reasons p) as [|r0 rs]; simpl in Hin; [tauto|].
    destruct Hin as [->|[]]. reflexivity.
Qed.

(** ** The pipeline of a job *)

Lemma find_all_falsy (l : list (option string)) :
  forallb (fun c => negb (Js.truthy_opt c)) l = true ->
  List.find Js.truthy_opt l = None.
Proof.
  induction l as [|c r IH]; simpl; [reflexivity|].
  destruct (Js.truthy_opt c); simpl; [discriminate|exact IH].
Qed.

Lemma fetchDescription_none (w : World) (i : nat) (p : Project) (t : string) :
  noDescription (tavily w i (tavilyQuery p t)) = true ->
  (fetchDescriptionFromTavily w i p t).1 = None.
Proof.
  unfold fetchDescriptionFromTavily, noDescription. intros H.
  destruct (negb hasTavily || negb (Js.truthy (name p)))%bool; [reflexivity|].
  destruct (tavily w i (tavilyQuery p t)) as [m|status text payload]; [reflexivity|].
  destruct (response_ok status); simpl in *; [|reflexivity].
  destruct payload as [pl|]; [|reflexivity].
  apply andb_true_iff in H as [Ha Hr].
  apply negb_true_iff in Ha. rewrite Ha, (find_all_falsy _ Hr). reflexivity.
Qed.

Lemma enrichProject_enriched (w : World) (t : string) (i : nat) (p : Project) :
  enrichedFrom p (enrichProject w t i p).1.
Proof.
  unfold enrichProject, enrichedFrom.
  destruct (needsDescription p); simpl; [|left; reflexivity].
  destruct (fetchDescriptionFromTavily w i p t) as [[d|] logged];
    [|left; reflexivity].
  destruct (Js.truthy d) eqn:Hd; [|left; reflexivity].
  right. exists d. split; [exact Hd|reflexivity].
Qed.

Lemma enrichProject_unchanged (w : World) (t : string) (i : nat) (p : Project) :
  noDescription (tavily w i (tavilyQuery p t)) = true ->
  (enrichProject w t i p).1 = p.
Proof.
  intros H. unfold enrichProject.
  destruct (needsDescription p); simpl; [|reflexivity].
  pose proof (fetchDescription_none w i p t H) as Hn.
  destruct (fetchDescriptionFromTavily w i p t) as [found logged].
  simpl in Hn. subst found. reflexivity.
Qed.

Lemma enrichFrom_lookup (w : World) (t : string) (ps : list Project) :
  forall (i k : nat),
    (enrichFrom w t i ps).1 !! k
    = (fun p => (enrichProject w t (i + k) p).1) <$> ps !! k.
Proof.
  induction ps as [|p r IH]; intros i k; simpl; [reflexivity|].
  destruct (enrichProject w t i p) as [p' logged] eqn:Ep.
  destruct (enrichFrom w t (S i) r) as [r' logged'] eqn:Er.
  destruct k as [|k]; simpl.
  - rewrite Nat.add_0_r, Ep. reflexivity.
  - specialize (IH (S i) k). rewrite Er in IH. simpl in IH.
    rewrite IH. replace (i + S k)%nat with (S i + k)%nat by lia. reflexivity.
Qed.

Lemma enrichFrom_enriched (w : World) (t : string) (ps : list Project) :
  forall i : nat, Forall2 enrichedFrom ps (enrichFrom w t i ps).1.
Proof.
  induction ps as [|p r IH]; intros i; simpl; [constructor|].
  pose proof (enrichProject_enriched w t i p) as Hp.
  destruct (enrichProject w t i p) as [p' logged].
  specialize (IH (S i)).
  destruct (enrichFrom w t (S i) r) as [r' logged'].
  constructor; assumption.
Qed.

Lemma jobResult_fetched (w : World) (payload : SearchFilters) (fetched : FetchResult) :
  fetchRepositories w payload = inr fetched ->
  jobResult w payload
  = (Completed (summarizeResult payload (selected w payload fetched).1) payload
       (fr_totalFetched fetched) (selected w payload fetched).1
       (toISOString (Date_now w)),
     (selected w payload fetched).2).
Proof.
  intros H. unfold jobResult, selected. rewrite H.
  destruct hasTavily; [|reflexivity].
  destruct (enrichFrom w (topic payload) 0 (fr_projects fetched)); reflexivity.
Qed.

Lemma jobResult_failed (w : World) (payload : SearchFilters) (message : string) :
  fetchRepositories w payload = inl message ->
  jobResult w payload = (Failed message payload, []).
Proof. intros H. unfold jobResult. rewrite H. reflexivity. Qed.

Lemma selected_enriched (w : World) (payload : SearchFilters) (fetched : FetchResult) :
  Forall2 enrichedFrom (fr_projects fetched) (selected w payload fetched).1.
Proof.
  unfold selected. destruct hasTavily; [apply enrichFrom_enriched|].
  simpl. apply Forall_Forall2_diag, Forall_forall. intros p _. left. reflexivity.
Qed.

Lemma fetchRepositories_ranked (w : World) (payload : SearchFilters)
    (fetched : FetchResult) :
  fetchRepositories w payload = inr fetched ->
  exists status body items,
    github w (buildGitHubQuery (Date_now w) payload) = GhHttp status body items
    /\ response_ok status = true
    /\ fetched = rankRepositories (Date_now w) payload (default [] items).
Proof.
  unfold fetchRepositories.
  destruct (github w (buildGitHubQuery (Date_now w) payload))
    as [m|status body items]; [discriminate|].
  destruct (response_ok status) eqn:Hok; simpl.
  - intros [= <-]. exists status, body, items.
    split; [reflexivity|]. split; [exact Hok|].
    destruct items; reflexivity.
  - destruct (status =? 403); discriminate.
Qed.

Lemma handleJob_resultQueues (w : World) (id : string) (payload : SearchFilters)
    (s : Worker) :
  resultQueues (redis (handleJob w id payload s))
  = <[resultKeyOf id :=
        default [] (resultQueues (redis s) !! resultKeyOf id)
        ++ [(jobResult w payload).1]]> (resultQueues (redis s)).
Proof.
  unfold handleJob.
  destruct (jobResult w payload) as [[summary filters n ps g|m filters] logged];
    reflexivity.
Qed.

(** C3 (amended): the worker publishes one envelope per job, appended to
    the job's result queue, with a status and the job's filters. A
    success carries in addition the summary, [totalFetched], the projects
    (no more than [limit], no more than were fetched) and the
    [generatedAt] timestamp; a failure carries the failure's message as
    [error], and no [generatedAt]. *)
Theorem C3_result_envelope (w : World) (id : string) (payload : SearchFilters)
    (s : Worker) :
  let e := (jobResult w payload).1 in
  resultQueues (redis (handleJob w id payload s)) !! resultKeyOf id
  = Some (default [] (resultQueues (redis s) !! resultKeyOf id) ++ [e])
  /\ (envelopeStatus e = "completed" \/ envelopeStatus e = "error")
  /\ envelopeFilters e = payload
  /\ (forall fetched, fetchRepositories w payload = inr fetched ->
        exists projects,
          e = Completed (summarizeResult payload projects) payload
                (fr_totalFetched fetched) projects (toISOString (Date_now w))
          /\ envelopeStatus e = "completed"
          /\ envelopeGeneratedAt e = Some (toISOString (Date_now w))
          /\ (length projects <= fr_totalFetched fetched)%nat
          /\ (0 <= limit payload ->
              (length projects <= Z.to_nat (limit payload))%nat))
  /\ (forall message, fetchRepositories w payload = inl message ->
        e = Failed message payload
        /\ envelopeStatus e = "error"
        /\ envelopeError e = Some message
        /\ envelopeGeneratedAt e = None).
Proof.
  intros e. split; [|split; [|split; [|split]]].
  - rewrite handleJob_resultQueues. apply lookup_insert_eq.
  - subst e. destruct (jobResult w payload) as [[]]; simpl; auto.
  - subst e. unfold jobResult.
    destruct (fetchRepositories w payload) as [m|fetched]; [reflexivity|].
    destruct hasTavily; [|reflexivity].
    destruct (enrichFrom w (topic payload) 0 (fr_projects fetched)); reflexivity.
  - intros fetched Hf. subst e. rewrite (jobResult_fetched w payload fetched Hf).
    exists (selected w payload fetched).1. simpl.
    split; [reflexivity|]. split; [reflexivity|]. split; [reflexivity|].
    pose proof (Forall2_length _ _ _ (selected_enriched w payload fetched)) as Hlen.
    rewrite <- Hlen.
    destruct (fetchRepositories_ranked w payload fetched Hf)
      as (status & body & items & _ & _ & ->).
    cbn [rankRepositories fr_projects fr_totalFetched].
    split.
    + pose proof (prefix_length _ _
        (slice0_prefix (sort byScoreDesc (map (normalizeRepo (Date_now w))
                                            (default [] items))) (limit payload))) as H.
      pose proof (Permutation_length
        (sort_perm (map (normalizeRepo (Date_now w)) (default [] items)))) as H'.
      rewrite length_map in H'. lia.
    + intros Hl. apply slice0_length, Hl.
  - intros message Hm. subst e. rewrite (jobResult_failed w payload message Hm).
    simpl. auto.
Qed.

(** C4: enrichment never fails the job. When the primary source answered,
    the job completes, whatever the enrichment source does; every
    published candidate is the fetched one, or the fetched one with a new
    non-empty description; a lookup that fails, is refused or comes back
    empty leaves its candidate as it was; and without a credential no
    candidate is touched and nothing is logged. The outcome of a job does
    not depend on the enrichment source. *)
Theorem C4_enrichment_never_fails (w : World) (payload : SearchFilters)
    (fetched : FetchResult) :
  fetchRepositories w payload = inr fetched ->
  let e := (jobResult w payload).1 in
  envelopeStatus e = "completed"
  /\ (exists projects,
        envelopeProjects e = Some projects
        /\ Forall2 enrichedFrom (fr_projects fetched) projects
        /\ (forall (k : nat) (p : Project),
              fr_projects fetched !! k = Some p ->
              noDescription (tavily w k (tavilyQuery p (topic payload))) = true ->
              projects !! k = Some p)
        /\ (TAVILY_API_KEY = "" ->
            projects = fr_projects fetched /\ (jobResult w payload).2 = []))
  /\ (forall w' : World,
        Date_now w' = Date_now w -> github w' = github w ->
        envelopeStatus (jobResult w' payload).1 = envelopeStatus e).
Proof.
  intros Hf e. subst e. rewrite (jobResult_fetched w payload fetched Hf).
  cbn [fst snd envelopeStatus envelopeProjects].
  split; [reflexivity|]. split.
  - exists (selected w payload fetched).1.
    split; [reflexivity|]. split; [apply selected_enriched|]. split.
    + intros k p Hk Hno. unfold selected. destruct hasTavily; [|exact Hk].
      rewrite enrichFrom_lookup, Hk. simpl.
      rewrite (enrichProject_unchanged w (topic payload) k p Hno). reflexivity.
    + intros Hkey. unfold selected, hasTavily. rewrite Hkey. simpl. auto.
  - intros w' Hnow Hgh.
    assert (Hf' : fetchRepositories w' payload = inr fetched).
    { unfold fetchRepositories in *. rewrite Hnow, Hgh. exact Hf. }
    rewrite (jobResult_fetched w' payload fetched Hf'). reflexivity.
Qed.

(** ** The published ranking *)

Lemma enrichedFrom_score (p p' : Project) : enrichedFrom p p' -> score p' = score p.
Proof. intros [->|(d & _ & ->)]; reflexivity. Qed.

Lemma enriched_below (c : Z) (ps ps' : list Project) :
  Forall2 enrichedFrom ps ps' ->
  Forall (fun b => score b <= c) ps -> Forall (fun b => score b <= c) ps'.
Proof.
  induction 1 as [|p p' r r' Hp Hr IH]; intros Hall; [constructor|].
  inversion Hall as [|? ? Hb Hbs]; subst.
  constructor; [rewrite (enrichedFrom_score _ _ Hp); exact Hb|apply IH, Hbs].
Qed.

Lemma enriched_sorted (ps ps' : list Project) :
  Forall2 enrichedFrom ps ps' ->
  StronglySorted scoreGe ps -> StronglySorted scoreGe ps'.
Proof.
  induction 1 as [|p p' r r' Hp Hr IH]; intros Hs; [constructor|].
  inversion Hs as [|? ? Hsr Hall]; subst.
  constructor; [apply IH, Hsr|].
  unfold scoreGe in *. rewrite (enrichedFrom_score _ _ Hp).
  eapply enriched_below; eassumption.
Qed.

(** Enrichment keeps the ranking: the projects of a published envelope are
    in descending order of score. *)
Lemma published_sorted (w : World) (payload : SearchFilters)
    (projects : list Project) :
  envelopeProjects (jobResult w payload).1 = Some projects ->
  StronglySorted scoreGe projects.
Proof.
  intros He.
  destruct (fetchRepositories w payload) as [m|fetched] eqn:Hf.
  { rewrite (jobResult_failed w payload m Hf) in He. discriminate. }
  rewrite (jobResult_fetched w payload fetched Hf) in He. simpl in He.
  injection He as <-.
  apply (enriched_sorted _ _ (selected_enriched w payload fetched)).
  destruct (fetchRepositories_ranked w payload fetched Hf)
    as (status & body & items & _ & _ & ->).
  cbn [rankRepositories fr_projects].
  destruct (slice0_prefix
              (sort byScoreDesc (map (normalizeRepo (Date_now w)) (default [] items)))
              (limit payload)) as [t Ht].
  pose proof (sort_sorted (map (normalizeRepo (Date_now w)) (default [] items))) as Hs.
  rewrite Ht in Hs. apply StronglySorted_app_1_l in Hs. exact Hs.
Qed.

(** ** The star filter *)

Lemma enrichedFrom_stars (p p' : Project) : enrichedFrom p p' -> stars p' = stars p.
Proof. intros [->|(d & _ & ->)]; reflexivity. Qed.

(** C5 (amended): a positive [minStars] puts the lower bound
    [stars:>=N] in the query sent to the primary source; the worker itself
    filters nothing, and publishes each candidate with the star count of a
    fetched item. So every published candidate has at least N stars
    whenever the source returns only items with at least N stars. *)
Theorem C5_minStars (w : World) (payload : SearchFilters) (n : Z)
    (projects : list Project) :
  minStars payload = Some n -> 0 < n ->
  envelopeProjects (jobResult w payload).1 = Some projects ->
  ("stars:>=" +:+ pretty n) ∈ querySegments (Date_now w) payload
  /\ (exists status body items,
        github w (buildGitHubQuery (Date_now w) payload) = GhHttp status body items
        /\ (forall p, p ∈ projects ->
              exists repo, repo ∈ default [] items
                           /\ stars p = stargazers_count repo)
        /\ (Forall (fun repo => n <= Z.of_N (stargazers_count repo)) (default [] items) ->
            Forall (fun p => n <= Z.of_N (stars p)) projects)).
Proof.
  intros Hmin Hn He. split.
  - unfold querySegments. rewrite Hmin.
    destruct (Z.ltb_spec 0 n) as [_|]; [|lia].
    rewrite !elem_of_app. right. right. left. apply list_elem_of_here.
  - destruct (fetchRepositories w payload) as [m|fetched] eqn:Hf.
    { rewrite (jobResult_failed w payload m Hf) in He. discriminate. }
    rewrite (jobResult_fetched w payload fetched Hf) in He. simpl in He.
    injection He as <-.
    destruct (fetchRepositories_ranked w payload fetched Hf)
      as (status & body & items & Hg & _ & Hr).
    exists status, body, items. split; [exact Hg|].
    assert (Hall : forall p, p ∈ (selected w payload fetched).1 ->
              exists repo, repo ∈ default [] items
                           /\ stars p = stargazers_count repo).
    { intros p Hp. apply list_elem_of_lookup in Hp as [k Hk].
      destruct (Forall2_lookup_r _ _ _ _ _ (selected_enriched w payload fetched) Hk)
        as (p0 & Hp0 & Hen).
      apply enrichedFrom_stars in Hen. rewrite Hen.
      apply list_elem_of_lookup_2 in Hp0. rewrite Hr in Hp0.
      cbn [rankRepositories fr_projects] in Hp0.
      pose proof (elem_of_prefix _ _ _ Hp0 (slice0_prefix _ _)) as Hs.
      rewrite sort_perm in Hs.
      change (map ?f ?l) with (f <$> l) in Hs.
      apply list_elem_of_fmap in Hs as (repo & -> & Hrepo).
      exists repo. split; [exact Hrepo|reflexivity]. }
    split; [exact Hall|].
    intros Hitems. apply Forall_forall. intros p Hp.
    destruct (Hall p Hp) as (repo & Hrepo & ->).
    rewrite Forall_forall in Hitems. apply Hitems, Hrepo.
Qed.

(** ** The dequeue loop *)

Lemma blpop_cons (s : Worker) (raw : string) (rest : list string) :
  requests (redis s) = raw :: rest ->
  blpop s = Some (raw, {| redis := dequeued (redis s); console := console s |}).
Proof. intros H. unfold blpop, dequeued. rewrite H. reflexivity. Qed.

Lemma processRequest_malformed (w : World) (raw : string) (s : Worker) :
  malformed raw ->
  exists entry,
    processRequest w raw s
    = {| redis := redis s; console := console s ++ [entry] |}.
Proof.
  unfold malformed, processRequest.
  destruct (JSON_parse raw) as [job|]; [|eauto].
  destruct (job_id job) as [id|], (job_payload job) as [payload|]; eauto.
  intros [H|[H|H]]; try discriminate.
  injection H as ->. simpl. eauto.
Qed.

Lemma processRequest_wellFormed (w : World) (raw id : string)
    (payload : SearchFilters) (s : Worker) :
  JSON_parse raw = Some {| job_id := Some id; job_payload := Some payload |} ->
  Js.truthy id = true ->
  processRequest w raw s = handleJob w id payload s.
Proof. intros Hp Hid. unfold processRequest. rewrite Hp. simpl. rewrite Hid. reflexivity. Qed.

Lemma handleJob_redis_console (w : World) (id : string) (payload : SearchFilters)
    (s s' : Worker) :
  redis s = redis s' ->
  redis (handleJob w id payload s) = redis (handleJob w id payload s').
Proof.
  intros H. unfold handleJob. rewrite H.
  destruct (jobResult w payload) as [[summary filters n ps g|m filters] logged];
    reflexivity.
Qed.

(** C7: a malformed request (one that does not parse, or lacks its id or
    its payload) is dropped with one line on the console; nothing is
    published and no status is written for it; the loop goes on, and the
    well-formed request behind it is served as if the malformed one had
    never been queued: its envelope is appended to its own result queue,
    with status "completed" when the primary source answers. *)
Theorem C7_malformed_dropped (w1 w2 : World) (bad good id : string)
    (payload : SearchFilters) (rest : list string) (s : Worker) :
  malformed bad ->
  JSON_parse good = Some {| job_id := Some id; job_payload := Some payload |} ->
  Js.truthy id = true ->
  requests (redis s) = bad :: good :: rest ->
  let s1 := workForever [w1] s in
  let s2 := workForever [w1; w2] s in
  (exists entry, console s1 = console s ++ [entry])
  /\ resultQueues (redis s1) = resultQueues (redis s)
  /\ jobMeta (redis s1) = jobMeta (redis s)
  /\ requests (redis s1) = good :: rest
  /\ redis s2
     = redis (workForever [w2]
                {| redis := dequeued (redis s); console := console s |})
  /\ requests (redis s2) = rest
  /\ resultQueues (redis s2)
     = <[resultKeyOf id :=
           default [] (resultQueues (redis s) !! resultKeyOf id)
           ++ [(jobResult w2 payload).1]]> (resultQueues (redis s))
  /\ (forall fetched, fetchRepositories w2 payload = inr fetched ->
        envelopeStatus (jobResult w2 payload).1 = "completed").
Proof.
  intros Hbad Hgood Hid Hreq s1 s2.
  pose (s0 := {| redis := dequeued (redis s); console := console s |}).
  pose proof (blpop_cons s bad (good :: rest) Hreq) as Hpop. fold s0 in Hpop.
  destruct (processRequest_malformed w1 bad s0 Hbad) as [entry Hdrop].
  pose (sA := {| redis := redis s0; console := console s0 ++ [entry] |}).
  fold sA in Hdrop.
  assert (HreqA : requests (redis sA) = good :: rest)
    by (cbn; rewrite Hreq; reflexivity).
  assert (Hreq0 : requests (redis s0) = good :: rest)
    by (cbn; rewrite Hreq; reflexivity).
  pose proof (blpop_cons sA good rest HreqA) as HpopA.
  pose proof (blpop_cons s0 good rest Hreq0) as Hpop0.
  assert (E1 : s1 = sA).
  { subst s1. cbn [workForever]. rewrite Hpop. exact Hdrop. }
  assert (E2 : s2 = handleJob w2 id payload
                      {| redis := dequeued (redis sA); console := console sA |}).
  { subst s2. cbn [workForever]. rewrite Hpop, Hdrop, HpopA.
    apply processRequest_wellFormed; assumption. }
  assert (E3 : workForever [w2] s0
               = handleJob w2 id payload
                   {| redis := dequeued (redis s0); console := console s0 |}).
  { cbn [workForever]. rewrite Hpop0.
    apply processRequest_wellFormed; assumption. }
  clearbody s1 s2. subst s1 s2.
  split; [exists entry; reflexivity|].
  split; [reflexivity|].
  split; [reflexivity|].
  split; [exact HreqA|].
  split; [fold s0; rewrite E3; apply handleJob_redis_console; reflexivity|].
  split; [|split].
  - unfold handleJob.
    destruct (jobResult w2 payload) as [[summary filters n ps g|m filters] logged];
      cbn; rewrite Hreq; reflexivity.
  - rewrite handleJob_resultQueues. reflexivity.
  - intros fetched Hf. rewrite (jobResult_fetched w2 payload fetched Hf). reflexivity.
Qed.

(** ** The await loop *)

Lemma ceilSeconds_bounds (ms : Z) :
  ms <= 1000 * ceilSeconds ms < ms + 1000.
Proof.
  unfold ceilSeconds.
  pose proof (Z.div_mod (- ms) 1000 ltac:(lia)).
  pose proof (Z.mod_pos_bound (- ms) 1000 ltac:(lia)).
  lia.
Qed.

(** C8 (amended): when no result reaches the result queue before the end
    of the blocking pop, which lasts the deadline rounded up to whole
    seconds, the await fails with the timeout condition; the call then
    settles no earlier than the deadline and overruns it by less than one
    second plus the latency of the store. *)
Theorem C8_timeout_bounded (fuel : nat) (start : Z) (arrival : option Arrival) :
  0 < SEARCH_TIMEOUT_MS -> 0 <= latency -> (2 <= fuel)%nat ->
  noResultBefore (start + 1000 * ceilSeconds SEARCH_TIMEOUT_MS) arrival ->
  let finish := start + 1000 * ceilSeconds SEARCH_TIMEOUT_MS + latency in
  waitForResult fuel start arrival = Some (TimedOut, finish)
  /\ start + SEARCH_TIMEOUT_MS <= finish
  /\ finish - (start + SEARCH_TIMEOUT_MS) < 1000 + latency.
Proof.
  intros HT Hlat Hfuel Hno finish.
  pose proof (ceilSeconds_bounds SEARCH_TIMEOUT_MS) as Hc.
  split; [|subst finish; lia].
  destruct fuel as [|[|fuel]]; [lia|lia|].
  unfold waitForResult. cbn [waitLoop].
  destruct (Z.ltb_spec start (start + SEARCH_TIMEOUT_MS)) as [_|]; [|lia].
  replace (start + SEARCH_TIMEOUT_MS - start) with SEARCH_TIMEOUT_MS by lia.
  assert (Hmax : Z.max 1 (ceilSeconds SEARCH_TIMEOUT_MS) = ceilSeconds SEARCH_TIMEOUT_MS)
    by lia.
  rewrite Hmax.
  assert (Hpop : brpop start (ceilSeconds SEARCH_TIMEOUT_MS) arrival = (None, finish)).
  { unfold brpop. destruct arrival as [a|]; [|reflexivity].
    simpl in Hno.
    destruct (Z.ltb_spec (pushedAt a) (start + 1000 * ceilSeconds SEARCH_TIMEOUT_MS));
      [lia|reflexivity]. }
  rewrite Hpop.
  destruct (Z.ltb_spec finish (start + SEARCH_TIMEOUT_MS)) as [|_];
    [subst finish; lia|reflexivity].
Qed.

(** * Further properties *)

(** ** Days, freshness and the score *)

Lemma roundDays_nearest (ms k : Z) :
  k * 86400000 - 43200000 <= ms < k * 86400000 + 43200000 ->
  roundDays ms = k.
Proof.
  pure. intros H. unfold roundDays.
  symmetry. apply Z.div_unique with (r := ms + 43200000 - 86400000 * k); lia.
Qed.

Lemma roundDays_mono (a b : Z) : a <= b -> roundDays a <= roundDays b.
Proof. pure. intros H. unfold roundDays. apply Z.div_le_mono; lia. Qed.

(** X1: the number of days since the last push is the age rounded to the
    nearest day, a half day counting as a whole one: a candidate pushed
    between k days less twelve hours and k days plus twelve hours ago has
    [daysSinceUpdate] k. The push date is preferred to the update date. *)
Theorem daysSinceUpdate_nearest_day (now t k : Z) (repo : Repo) (stamp : string) :
  updatedAt repo = Some stamp -> Js.truthy stamp = true ->
  Date_getTime stamp = Some t ->
  k * 86400000 - 43200000 <= now - t < k * 86400000 + 43200000 ->
  daysSinceUpdate (normalizeRepo now repo) = Finite k
  /\ (forall pushed, pushed_at repo = Some pushed -> stamp = pushed).
Proof.
  intros Hu Hs Ht Hk. split.
  - cbn [normalizeRepo daysSinceUpdate]. unfold daysSince.
    rewrite Hu. cbn [Js.truthy_opt]. rewrite Hs, Ht.
    f_equal. apply roundDays_nearest, Hk.
  - intros pushed Hp. unfold updatedAt in Hu. rewrite Hp in Hu. congruence.
Qed.

Lemma truthy_nonempty (s : string) : Js.truthy s = true -> s <> "".
Proof. pure. destruct s; [discriminate|discriminate]. Qed.

Lemma freshness_reason_listed (now : Z) (repo : Repo) :
  describeFreshness (daysSince now repo) ∈ reasons (normalizeRepo now repo).
Proof.
  cbn [normalizeRepo reasons]. apply filterBoolean_spec. split.
  - apply truthy_nonempty, describeFreshness_truthy.
  - unfold reasonSlots. do 2 apply list_elem_of_further. apply list_elem_of_here.
Qed.

(** X2: a date that does not parse counts as no date: the candidate gets the
    reason "unknown activity" and no freshness bonus. *)
Theorem invalid_date_unknown_activity (now : Z) (repo : Repo) (stamp : string) :
  updatedAt repo = Some stamp -> Date_getTime stamp = None ->
  let p := normalizeRepo now repo in
  isFinite (daysSinceUpdate p) = false
  /\ "unknown activity" ∈ reasons p
  /\ freshnessScore (daysSinceUpdate p) = 0.
Proof.
  intros Hu Ht p.
  assert (Hd : daysSinceUpdate p = NaN \/ daysSinceUpdate p = PosInf).
  { subst p. cbn [normalizeRepo daysSinceUpdate]. unfold daysSince.
    rewrite Hu. cbn [Js.truthy_opt]. rewrite Ht.
    destruct (Js.truthy stamp); auto. }
  pose proof (freshness_reason_listed now repo) as Hin.
  change (daysSince now repo) with (daysSinceUpdate p) in Hin.
  destruct Hd as [Hd|Hd]; rewrite Hd in *; auto.
Qed.

Lemma freshnessScore_nonneg (d : days) : 0 <= freshnessScore d.
Proof. pure. destruct d; cbn [freshnessScore]; unfold Double.max; lia. Qed.

Lemma ofZ_120_pos : 0 < Double.ofZ 120.
Proof. pure. vm_compute. reflexivity. Qed.

Lemma freshnessScore_antitone (a b : Z) :
  a <= b -> freshnessScore (Finite b) <= freshnessScore (Finite a).
Proof.
  pure. intros H. cbn [freshnessScore].
  apply max_mono, sub_mono; [lia|].
  apply div_mono; [apply ofZ_120_pos|apply ofZ_mono, H].
Qed.

Lemma freshnessScore_today : freshnessScore (Finite 0) = Double.ofZ 3.
Proof. pure. vm_compute. reflexivity. Qed.

Lemma freshnessScore_359 : 0 < freshnessScore (Finite 359).
Proof. pure. vm_compute. reflexivity. Qed.

Lemma freshnessScore_360 : freshnessScore (Finite 360) = 0.
Proof. pure. vm_compute. reflexivity. Qed.

Lemma freshnessScore_stale (n : Z) : 360 <= n -> freshnessScore (Finite n) = 0.
Proof.
  pure. intros H. pose proof (freshnessScore_antitone 360 n H) as Hle.
  rewrite freshnessScore_360 in Hle.
  pose proof (freshnessScore_nonneg (Finite n)). lia.
Qed.

(** X3: the freshness bonus is never negative, is at most 3 for a date that
    is not in the future, does not grow with age, and is zero exactly
    from 360 days on; a candidate whose reason is "no recent commits in
    the last year" or "unknown activity" gets none. *)
Theorem freshness_bonus_range (d : days) :
  0 <= freshnessScore d
  /\ (forall n, d = Finite n -> 0 <= n -> freshnessScore d <= Double.ofZ 3)
  /\ (forall n, d = Finite n -> (freshnessScore d = 0 <-> 360 <= n))
  /\ (forall a b, a <= b ->
        freshnessScore (Finite b) <= freshnessScore (Finite a))
  /\ (describeFreshness d = "no recent commits in the last year"
      \/ describeFreshness d = "unknown activity" ->
      freshnessScore d = 0).
Proof.
  pure. split; [apply freshnessScore_nonneg|]. split; [|split; [|split]].
  - intros n -> Hn. rewrite <- freshnessScore_today.
    apply freshnessScore_antitone, Hn.
  - intros n ->. split.
    + intros H. destruct (Z_lt_le_dec n 360) as [Hlt|]; [|assumption].
      exfalso. pose proof (freshnessScore_antitone n 359 ltac:(lia)).
      pose proof freshnessScore_359. lia.
    + apply freshnessScore_stale.
  - apply freshnessScore_antitone.
  - destruct d as [n| |]; [|reflexivity|reflexivity].
    unfold describeFreshness.
    repeat (match goal with
            | |- context [?a <=? ?b] => destruct (Z.leb_spec a b)
            end); intros [E|E]; try discriminate; apply freshnessScore_stale; lia.
Qed.

(** *** Monotonicity *)




(** X5: the score is monotonic in recency: of two dated candidates with the
    same counters, the one pushed later does not score lower. *)
Theorem score_monotonic_in_recency (now t t' : Z) (r r' : Repo)
    (stamp stamp' : string) :
  stargazers_count r = stargazers_count r' ->
  forks_count r = forks_count r' ->
  watchers_count r = watchers_count r' ->
  open_issues_count r = open_issues_count r' ->
  updatedAt r = Some stamp -> Js.truthy stamp = true ->
  Date_getTime stamp = Some t ->
  updatedAt r' = Some stamp' -> Js.truthy stamp' = true ->
  Date_getTime stamp' = Some t' ->
  t <= t' ->
  score (normalizeRepo now r) <= score (normalizeRepo now r').
Proof.
  intros Hs Hf Hw Hi Hu Hn Ht Hu' Hn' Ht' Hle. cbn [normalizeRepo score].
  apply toFixed2_mono. unfold rawScore.
  rewrite (daysSince_dated now t r stamp Hu Hn Ht).
  rewrite (daysSince_dated now t' r' stamp' Hu' Hn' Ht').
  rewrite Hs, Hf, Hw, Hi.
  apply sub_mono; [|lia]. apply add_mono; [lia|].
  apply freshnessScore_antitone, roundDays_mono. lia.
Qed.

(** ** Trimmed descriptions *)

Lemma chars_rev_app (s1 s2 : string) :
  list_ascii_of_string (String.rev_app s1 s2)
  = reverse (list_ascii_of_string s1) ++ list_ascii_of_string s2.
Proof.
  pure. revert s2. induction s1 as [|c s1 IH]; intros s2; [reflexivity|].
  cbn [String.rev_app list_ascii_of_string]. rewrite IH, reverse_cons.
  rewrite <- app_assoc. reflexivity.
Qed.

Lemma chars_rev (s : string) :
  list_ascii_of_string (String.rev s) = reverse (list_ascii_of_string s).
Proof. pure. unfold String.rev. rewrite chars_rev_app. apply app_nil_r. Qed.

Lemma chars_inj (s t : string) :
  list_ascii_of_string s = list_ascii_of_string t -> s = t.
Proof.
  pure. intros H. rewrite <- (string_of_list_ascii_of_string s),
    <- (string_of_list_ascii_of_string t), H. reflexivity.
Qed.

Lemma chars_trimStart (s : string) :
  list_ascii_of_string (Js.trimStart s) = dropSpaces (list_ascii_of_string s).
Proof.
  pure. induction s as [|c s IH]; [reflexivity|].
  cbn [Js.trimStart list_ascii_of_string dropSpaces].
  destruct (Ascii.is_space c); [exact IH|reflexivity].
Qed.

Lemma chars_trim (s : string) :
  list_ascii_of_string (Js.trim s)
  = reverse (dropSpaces (reverse (dropSpaces (list_ascii_of_string s)))).
Proof.
  pure. unfold Js.trim, Js.trimEnd.
  rewrite chars_rev, chars_trimStart, chars_rev, chars_trimStart. reflexivity.
Qed.

Lemma dropSpaces_head (l : list ascii) (c : ascii) :
  head (dropSpaces l) = Some c -> Ascii.is_space c = false.
Proof.
  pure. induction l as [|a r IH]; simpl; [discriminate|].
  destruct (Ascii.is_space a) eqn:Ha; [exact IH|].
  simpl. intros [= <-]. exact Ha.
Qed.

Lemma dropSpaces_fixed (l : list ascii) :
  (forall c, head l = Some c -> Ascii.is_space c = false) -> dropSpaces l = l.
Proof.
  pure. destruct l as [|a r]; [reflexivity|]. simpl. intros H.
  rewrite (H a eq_refl). reflexivity.
Qed.

Lemma dropSpaces_snoc (l : list ascii) (c : ascii) :
  Ascii.is_space c = false -> dropSpaces (l ++ [c]) = dropSpaces l ++ [c].
Proof.
  pure. intros Hc. induction l as [|a r IH]; simpl; [rewrite Hc; reflexivity|].
  destruct (Ascii.is_space a); [exact IH|reflexivity].
Qed.

Lemma dropSpaces_blank (l : list ascii) :
  Forall (fun c => Ascii.is_space c = true) l -> dropSpaces l = [].
Proof.
  pure. induction 1 as [|c r Hc Hr IH]; simpl; [reflexivity|]. rewrite Hc. exact IH.
Qed.

(** Trimming the end keeps a first character that is not white space. *)
Lemma trimEnd_head (l : list ascii) (c : ascii) :
  head l = Some c -> Ascii.is_space c = false ->
  head (reverse (dropSpaces (reverse l))) = Some c.
Proof.
  pure. destruct l as [|a r]; simpl; [discriminate|]. intros [= ->] Hc.
  rewrite reverse_cons, (dropSpaces_snoc _ _ Hc), reverse_snoc. reflexivity.
Qed.

Lemma trim_head (s : string) (c : ascii) :
  head (list_ascii_of_string (Js.trim s)) = Some c -> Ascii.is_space c = false.
Proof.
  pure. rewrite chars_trim. set (l := dropSpaces (list_ascii_of_string s)).
  destruct (head l) as [a|] eqn:Hl.
  - pose proof (dropSpaces_head _ _ Hl) as Ha.
    rewrite (trimEnd_head l a Hl Ha). intros [= <-]. exact Ha.
  - destruct l; [|discriminate]. discriminate.
Qed.

Lemma trim_last (s : string) (c : ascii) :
  last (list_ascii_of_string (Js.trim s)) = Some c -> Ascii.is_space c = false.
Proof. pure. rewrite chars_trim, last_reverse. apply dropSpaces_head. Qed.

Lemma trim_idempotent (s : string) : Js.trim (Js.trim s) = Js.trim s.
Proof.
  pure. apply chars_inj. rewrite (chars_trim (Js.trim s)).
  rewrite (dropSpaces_fixed (list_ascii_of_string (Js.trim s)))
    by (intros c; apply trim_head).
  rewrite chars_trim, reverse_involutive.
  rewrite (dropSpaces_fixed (dropSpaces _)) by (intros c; apply dropSpaces_head).
  reflexivity.
Qed.

Lemma trim_blank (s : string) :
  Forall (fun c => Ascii.is_space c = true) (list_ascii_of_string s) ->
  Js.trim s = "".
Proof.
  pure. intros H. apply chars_inj. rewrite chars_trim, (dropSpaces_blank _ H).
  reflexivity.
Qed.

Lemma cleanDescription_trim (s : string) : cleanDescription (Some s) = Js.trim s.
Proof. pure. unfold cleanDescription. destruct (Js.trim s); reflexivity. Qed.

(** X6: the description of a normalized candidate is trimmed: it neither
    starts nor ends with white space, cleaning it again changes nothing,
    and a missing or blank description becomes the empty string. *)
Theorem cleanDescription_trimmed (raw : option string) :
  let d := cleanDescription raw in
  (forall c, head (list_ascii_of_string d) = Some c -> Ascii.is_space c = false)
  /\ (forall c, last (list_ascii_of_string d) = Some c -> Ascii.is_space c = false)
  /\ cleanDescription (Some d) = d
  /\ (raw = None -> d = "")
  /\ (forall s, raw = Some s ->
        Forall (fun c => Ascii.is_space c = true) (list_ascii_of_string s) ->
        d = "").
Proof.
  pure. intros d. subst d. destruct raw as [s|].
  - rewrite !cleanDescription_trim.
    split; [intros c; apply trim_head|]. split; [intros c; apply trim_last|].
    split; [apply trim_idempotent|]. split; [discriminate|].
    intros s' [= <-]. apply trim_blank.
  - repeat split; try discriminate; try reflexivity.
Qed.

(** ** Enrichment, when it succeeds *)

(** X7: a successful lookup: the trimmed answer when there is one that is
    not blank, whatever the results hold, and it becomes the description
    of a candidate that needs one; otherwise the trimmed content of the
    first result that has content. *)
Theorem lookup_prefers_answer (w : World) (i : nat) (p : Project) (t : string)
    (status : Z) (text : string) (pl : TavilyPayload) :
  hasTavily = true -> Js.truthy (name p) = true ->
  tavily w i (tavilyQuery p t) = TvHttp status text (Some pl) ->
  response_ok status = true ->
  (forall a, answer pl = Some a -> Js.truthy (Js.trim a) = true ->
     fetchDescriptionFromTavily w i p t = (Some (Js.trim a), [])
     /\ (needsDescription p = true ->
         enrichProject w t i p = (setDescription (Js.trim a) p, [])))
  /\ (forall c rest,
        Js.truthy_opt (Js.trim <$> answer pl) = false ->
        results pl = rest ++ [Some c] ++ drop (S (length rest)) (results pl) ->
        Forall (fun e => Js.truthy_opt e = false) rest ->
        Js.truthy c = true ->
        fetchDescriptionFromTavily w i p t = (Some (Js.trim c), [])).
Proof.
  intros Hkey Hname Hreply Hok. split.
  - intros a Ha Htrim.
    assert (E : fetchDescriptionFromTavily w i p t = (Some (Js.trim a), [])).
    { unfold fetchDescriptionFromTavily.
      rewrite Hkey, Hname, Hreply, Hok. cbn [negb orb].
      rewrite Ha. cbn [fmap option_fmap option_map Js.truthy_opt].
      rewrite Htrim. reflexivity. }
    split; [exact E|].
    intros Hneeds. unfold enrichProject. rewrite Hneeds, E. cbn [negb].
    rewrite Htrim. reflexivity.
  - unfold fetchDescriptionFromTavily.
    rewrite Hkey, Hname, Hreply, Hok. cbn [negb orb].
    intros c rest Hans Hres Hrest Hc. rewrite Hans, Hres.
    assert (Hfind : forall tl, List.find Js.truthy_opt (rest ++ [Some c] ++ tl)
                               = Some (Some c)).
    { clear -Hrest Hc. intros tl. induction Hrest as [|e r He Hr IH]; simpl.
      - rewrite Hc. reflexivity.
      - rewrite He. exact IH. }
    rewrite Hfind. reflexivity.
Qed.

Lemma fetchDescription_trimmed (w : World) (i : nat) (p : Project) (t d : string) :
  (fetchDescriptionFromTavily w i p t).1 = Some d ->
  hasTavily = true /\ Js.truthy (name p) = true /\ Js.trim d = d.
Proof.
  unfold fetchDescriptionFromTavily.
  destruct hasTavily; [|discriminate]. destruct (Js.truthy (name p)); [|discriminate].
  cbn [negb orb].
  destruct (tavily w i (tavilyQuery p t)) as [m|status text payload]; [discriminate|].
  destruct (response_ok status); cbn [negb]; [|discriminate].
  destruct payload as [pl|]; [|discriminate].
  destruct (answer pl) as [a|]; cbn [fmap option_fmap option_map Js.truthy_opt].
  - destruct (Js.truthy (Js.trim a)).
    + intros [= <-]. auto using trim_idempotent.
    + destruct (List.find Js.truthy_opt (results pl)) as [[c|]|]; try discriminate.
      intros [= <-]. auto using trim_idempotent.
  - destruct (List.find Js.truthy_opt (results pl)) as [[c|]|]; try discriminate.
    intros [= <-]. auto using trim_idempotent.
Qed.

Lemma enrichProject_changes (w : World) (t : string) (i : nat) (p : Project) :
  description (enrichProject w t i p).1 <> description p ->
  needsDescription p = true /\ hasTavily = true /\ Js.truthy (name p) = true
  /\ Js.truthy (description (enrichProject w t i p).1) = true
  /\ Js.trim (description (enrichProject w t i p).1)
     = description (enrichProject w t i p).1.
Proof.
  unfold enrichProject. destruct (needsDescription p); cbn [negb];
    [|simpl; intros Hc; exfalso; apply Hc; reflexivity].
  pose proof (fetchDescription_trimmed w i p t) as Htrim.
  destruct (fetchDescriptionFromTavily w i p t) as [[d|] logged];
    [|simpl; intros Hc; exfalso; apply Hc; reflexivity].
  destruct (Js.truthy d) eqn:Hd; simpl;
    [|intros Hc; exfalso; apply Hc; reflexivity].
  intros _. destruct (Htrim d eq_refl) as (? & ? & ?). auto.
Qed.

(** X8: enrichment only fills gaps: a published description differs from the
    fetched one only for a candidate that needed one, with a credential
    configured and a named candidate; the new description is then not
    empty and is trimmed. A description that is already there is never
    overwritten. *)
Theorem enrichment_only_fills_gaps (w : World) (payload : SearchFilters)
    (fetched : FetchResult) (projects : list Project) :
  fetchRepositories w payload = inr fetched ->
  envelopeProjects (jobResult w payload).1 = Some projects ->
  forall (k : nat) (p p' : Project),
    fr_projects fetched !! k = Some p -> projects !! k = Some p' ->
    (needsDescription p = false -> p' = p)
    /\ (description p' <> description p ->
        needsDescription p = true /\ hasTavily = true
        /\ Js.truthy (name p) = true
        /\ Js.truthy (description p') = true
        /\ Js.trim (description p') = description p').
Proof.
  intros Hf He k p p' Hk Hk'.
  rewrite (jobResult_fetched w payload fetched Hf) in He. simpl in He.
  injection He as <-. unfold selected in Hk'.
  destruct hasTavily eqn:Hkey.
  - rewrite enrichFrom_lookup, Hk in Hk'. simpl in Hk'. injection Hk' as <-.
    split.
    + intros Hn. unfold enrichProject. rewrite Hn. reflexivity.
    + intros Hd. destruct (enrichProject_changes w (topic payload) k p Hd)
        as (? & Hkey' & ? & ? & ?).
      unfold hasTavily in Hkey'. auto.
  - simpl in Hk'. rewrite Hk in Hk'. injection Hk' as <-.
    split; [reflexivity|congruence].
Qed.

(** ** Failures of the primary source *)


(** X10: the text of a failure. A thrown request gives its own message; a 403
    gives the rate-limit message, which advises to set [GITHUB_TOKEN]
    when there is none and to wait when there is one, and does not repeat
    the body of the response; any other status gives the status and the
    body. The text is the [error] of the envelope. *)
Theorem source_failure_messages (w : World) (payload : SearchFilters) :
  match github w (buildGitHubQuery (Date_now w) payload) with
  | GhThrows message =>
      envelopeError (jobResult w payload).1 = Some message
  | GhHttp status body _ =>
      response_ok status = false ->
      envelopeError (jobResult w payload).1
      = Some (if status =? 403
              then if Js.truthy_opt GITHUB_TOKEN
                   then "GitHub rate limit exceeded. Consider waiting before retrying."
                   else "GitHub rate limit exceeded. Set GITHUB_TOKEN for higher limits."
              else "GitHub search failed (" +:+ pretty status +:+ "): " +:+ body)
  end.
Proof.
  unfold jobResult, fetchRepositories.
  destruct (github w (buildGitHubQuery (Date_now w) payload))
    as [m|status body items]; [reflexivity|].
  intros Hok. rewrite Hok. cbn [negb].
  destruct (status =? 403); [|reflexivity].
  destruct (Js.truthy_opt GITHUB_TOKEN); reflexivity.
Qed.

(** ** Truncation *)

Lemma slice0_length_eq {A} (l : list A) (e : Z) :
  length (Js.slice0 l e)
  = Z.to_nat (if e <? 0 then Z.max (Z.of_nat (length l) + e) 0
              else Z.min e (Z.of_nat (length l))).
Proof.
  pure. unfold Js.slice0. destruct (Z.ltb_spec e 0); rewrite length_take; lia.
Qed.

Lemma prefix_sublist {A} (l k : list A) : l `prefix_of` k -> l `sublist_of` k.
Proof. pure. intros [t ->]. apply sublist_inserts_r. reflexivity. Qed.

Lemma enrichedFrom_id (p p' : Project) : enrichedFrom p p' -> id p' = id p.
Proof. pure. intros [->|(d & _ & ->)]; reflexivity. Qed.

(** X11: what a successful job publishes: [totalFetched] is the number of
    items the source returned (none when [items] is not an array); the
    projects are the first [limit] of the ranking, all of it when there are
    fewer, and for a negative [limit] the ranking without its last
    [-limit] entries; and no candidate is invented or repeated: the
    identifiers published are among the identifiers fetched, counted with
    multiplicity. *)
Theorem published_is_truncated_ranking (w : World) (payload : SearchFilters)
    (fetched : FetchResult) (projects : list Project) :
  fetchRepositories w payload = inr fetched ->
  envelopeProjects (jobResult w payload).1 = Some projects ->
  exists status body items,
    github w (buildGitHubQuery (Date_now w) payload) = GhHttp status body items
    /\ envelopeTotalFetched (jobResult w payload).1 = Some (length (default [] items))
    /\ (0 <= limit payload ->
        length projects
        = Z.to_nat (Z.min (limit payload) (Z.of_nat (length (default [] items)))))
    /\ (limit payload < 0 ->
        length projects
        = Z.to_nat (Z.max (Z.of_nat (length (default [] items)) + limit payload) 0))
    /\ id <$> projects ⊆+ repo_id <$> default [] items.
Proof.
  intros Hf He.
  rewrite (jobResult_fetched w payload fetched Hf) in *. simpl in He.
  injection He as <-.
  pose proof (selected_enriched w payload fetched) as Hen.
  destruct (fetchRepositories_ranked w payload fetched Hf)
    as (status & body & items & Hg & _ & Hr).
  exists status, body, items. split; [exact Hg|].
  set (normalized := map (normalizeRepo (Date_now w)) (default [] items)).
  assert (Hlen : length (sort byScoreDesc normalized) = length (default [] items)).
  { rewrite (Permutation_length (sort_perm normalized)). apply length_map. }
  assert (Hfp : fr_projects fetched
                = Js.slice0 (sort byScoreDesc normalized) (limit payload))
    by (rewrite Hr; reflexivity).
  split; [rewrite Hr; reflexivity|].
  rewrite <- (Forall2_length _ _ _ Hen), Hfp, slice0_length_eq, Hlen.
  split; [|split].
  - intros Hl. destruct (Z.ltb_spec (limit payload) 0); [lia|reflexivity].
  - intros Hl. destruct (Z.ltb_spec (limit payload) 0); [reflexivity|lia].
  - assert (Hids : id <$> (selected w payload fetched).1 = id <$> fr_projects fetched).
    { clear -Hen. induction Hen as [|p p' r r' Hp Hr IH]; [reflexivity|].
      csimpl. f_equal; [apply enrichedFrom_id, Hp|exact IH]. }
    rewrite Hids, Hfp.
    assert (Hsub : Js.slice0 (sort byScoreDesc normalized) (limit payload)
                   ⊆+ normalized).
    { rewrite <- (sort_perm normalized) at 2.
      apply sublist_submseteq, prefix_sublist, slice0_prefix. }
    apply (fmap_submseteq id) in Hsub.
    unfold normalized in Hsub at 2.
    change (map ?f ?l) with (f <$> l) in Hsub.
    rewrite <- list_fmap_compose in Hsub. exact Hsub.
Qed.

(** ** Keys and status records *)

Lemma resultKeyOf_inj (a b : string) : resultKeyOf a = resultKeyOf b -> a = b.
Proof. pure. unfold resultKeyOf. intros H. do 2 apply String.app_inj in H. exact H. Qed.

Lemma metaKeyOf_inj (a b : string) : metaKeyOf a = metaKeyOf b -> a = b.
Proof. pure. unfold metaKeyOf. intros H. do 2 apply String.app_inj in H. exact H. Qed.

Lemma resultKey_not_metaKey (a b : string) : resultKeyOf a <> metaKeyOf b.
Proof. pure. unfold resultKeyOf, metaKeyOf. discriminate. Qed.

(** X12: the keys of the store never collide: the result queues and status
    records of different jobs have different keys, no result queue shares
    its key with a status record, and none of them is the request queue. *)
Theorem job_keys_are_disjoint (a b : string) :
  (resultKeyOf a = resultKeyOf b -> a = b)
  /\ (metaKeyOf a = metaKeyOf b -> a = b)
  /\ resultKeyOf a <> metaKeyOf b
  /\ resultKeyOf a <> REQUEST_QUEUE
  /\ metaKeyOf a <> REQUEST_QUEUE.
Proof.
  pure. split; [apply resultKeyOf_inj|]. split; [apply metaKeyOf_inj|].
  split; [apply resultKey_not_metaKey|]. split; discriminate.
Qed.

(** The terminal status [handleJob] writes for an envelope. *)
Lemma handleJob_store (w : World) (id : string) (payload : SearchFilters)
    (s : Worker) :
  redis (handleJob w id payload s)
  = publish id (jobResult w payload).1
      (match (jobResult w payload).1 with
       | Completed _ _ totalFetched _ _ =>
           StCompleted (toISOString (Date_now w)) totalFetched
       | Failed message _ => StError message (toISOString (Date_now w))
       end)
      (setMeta id (StProcessing (toISOString (Date_now w))
                     (toISOString (Date_now w)) (topic payload)) (redis s)).
Proof.
  unfold handleJob.
  destruct (jobResult w payload) as [[summary filters n ps g|m filters] logged];
    reflexivity.
Qed.

(** X13: what a job leaves in the store besides its envelope: the terminal
    status record agrees with the envelope (completed with the number
    fetched, or error with the same message) and replaces the
    "processing" record; the result queue and the status record both
    expire after [RESULT_TTL_SECONDS]; the request queue is not touched;
    and the result queues and status records of other jobs are left as
    they were. *)
Theorem handleJob_status_record (w : World) (id : string) (payload : SearchFilters)
    (s : Worker) :
  let r' := redis (handleJob w id payload s) in
  let e := (jobResult w payload).1 in
  jobMeta r' !! metaKeyOf id
  = Some (match e with
          | Completed _ _ totalFetched _ _ =>
              StCompleted (toISOString (Date_now w)) totalFetched
          | Failed message _ => StError message (toISOString (Date_now w))
          end)
  /\ ttl r' !! resultKeyOf id = Some RESULT_TTL_SECONDS
  /\ ttl r' !! metaKeyOf id = Some RESULT_TTL_SECONDS
  /\ requests r' = requests (redis s)
  /\ (forall other, other <> id ->
        resultQueues r' !! resultKeyOf other = resultQueues (redis s) !! resultKeyOf other
        /\ jobMeta r' !! metaKeyOf other = jobMeta (redis s) !! metaKeyOf other).
Proof.
  intros r' e. subst r' e. rewrite handleJob_store.
  unfold publish, setMeta, rpushResult. cbn [jobMeta ttl requests resultQueues].
  split; [apply lookup_insert_eq|].
  split.
  { rewrite lookup_insert_ne by (intros H; symmetry in H; revert H;
                                 apply resultKey_not_metaKey).
    apply lookup_insert_eq. }
  split; [apply lookup_insert_eq|]. split; [reflexivity|].
  intros other Hne. split.
  - apply lookup_insert_ne. intros H. apply resultKeyOf_inj in H. congruence.
  - rewrite !lookup_insert_ne; [reflexivity|..];
      intros H; apply metaKeyOf_inj in H; congruence.
Qed.

(** ** The loop as a whole *)

Lemma processRequest_queue (w : World) (raw : string) (s : Worker) :
  requests (redis (processRequest w raw s)) = requests (redis s)
  /\ resultQueues (redis (processRequest w raw s))
     = match requestId raw with
       | Some id =>
           match JSON_parse raw with
           | Some {| job_id := _; job_payload := Some payload |} =>
               <[resultKeyOf id :=
                   default [] (resultQueues (redis s) !! resultKeyOf id)
                   ++ [(jobResult w payload).1]]> (resultQueues (redis s))
           | _ => resultQueues (redis s)
           end
       | None => resultQueues (redis s)
       end.
Proof.
  unfold processRequest, requestId.
  destruct (JSON_parse raw) as [[[id|] [payload|]]|]; cbn; auto.
  destruct (Js.truthy id); [|auto].
  rewrite handleJob_resultQueues. split; [|reflexivity].
  rewrite handleJob_store. reflexivity.
Qed.

Lemma processRequest_queue_length (w : World) (raw : string) (s : Worker)
    (id : string) :
  length (default [] (resultQueues (redis (processRequest w raw s)) !! resultKeyOf id))
  = (length (default [] (resultQueues (redis s) !! resultKeyOf id))
     + (if bool_decide (requestId raw = Some id) then 1 else 0))%nat.
Proof.
  destruct (processRequest_queue w raw s) as [_ Hq]. rewrite Hq. clear Hq.
  unfold requestId.
  destruct (JSON_parse raw) as [[[rid|] [payload|]]|]; cbn;
    try (rewrite bool_decide_eq_false_2 by discriminate; lia).
  destruct (Js.truthy rid);
    [|rewrite bool_decide_eq_false_2 by discriminate; lia].
  destruct (decide (rid = id)) as [->|Hne].
  - rewrite lookup_insert_eq, bool_decide_eq_true_2 by reflexivity.
    cbn. rewrite length_app. reflexivity.
  - rewrite lookup_insert_ne by (intros H; apply resultKeyOf_inj in H; congruence).
    rewrite bool_decide_eq_false_2 by congruence. lia.
Qed.

(** X14: the loop serves the requests in the order of the queue, one per turn,
    and publishes one envelope for each well-formed request and none for
    any other: after [n] turns on a queue of at least [n] requests, the
    queue has lost its first [n] requests, and the result queue of every
    job has grown by the number of well-formed requests with its
    identifier among them. *)
Theorem workForever_one_envelope_per_request (ws : list World) (s : Worker) :
  (length ws <= length (requests (redis s)))%nat ->
  let s' := workForever ws s in
  requests (redis s') = drop (length ws) (requests (redis s))
  /\ forall id : string,
       length (default [] (resultQueues (redis s') !! resultKeyOf id))
       = (length (default [] (resultQueues (redis s) !! resultKeyOf id))
          + length (filter (fun raw => requestId raw = Some id)
                      (take (length ws) (requests (redis s)))))%nat.
Proof.
  revert s. induction ws as [|w ws IH]; intros s Hlen s'.
  - subst s'. cbn [workForever length]. split; [reflexivity|]. intros id.
    rewrite take_0, filter_nil. cbn [length]. lia.
  - destruct (requests (redis s)) as [|raw rest] eqn:Hreq; [simpl in Hlen; lia|].
    subst s'. cbn [workForever]. rewrite (blpop_cons s raw rest Hreq).
    set (s0 := {| redis := dequeued (redis s); console := console s |}).
    assert (Hreq1 : requests (redis (processRequest w raw s0)) = rest).
    { rewrite (proj1 (processRequest_queue w raw s0)). cbn. rewrite Hreq.
      reflexivity. }
    specialize (IH (processRequest w raw s0)). rewrite Hreq1 in IH.
    destruct (IH ltac:(simpl in Hlen; lia)) as [IHq IHr].
    split; [exact IHq|].
    intros id. rewrite IHr, processRequest_queue_length.
    cbn [length take]. rewrite filter_cons.
    replace (resultQueues (redis s0)) with (resultQueues (redis s)) by reflexivity.
    destruct (decide (requestId raw = Some id)) as [E|E].
    + rewrite bool_decide_eq_true_2 by exact E. cbn [length]. lia.
    + rewrite bool_decide_eq_false_2 by exact E. lia.
Qed.

(** X15: a malformed request never reaches the sources: whatever the world
    does while it is served, it leaves the same store and the same
    console. *)
Theorem malformed_request_is_not_fetched (w w' : World) (raw : string) (s : Worker) :
  requestId raw = None -> processRequest w raw s = processRequest w' raw s.
Proof.
  unfold requestId, processRequest.
  destruct (JSON_parse raw) as [[[id|] [payload|]]|]; cbn; try reflexivity.
  destruct (Js.truthy id); [discriminate|reflexivity].
Qed.

(** ** The query *)

(** X16: a threshold of zero stars or less is no threshold: the query is the
    one built without [minStars]. A positive threshold adds exactly one
    term to the query, the lower bound on the stars. *)
Theorem query_without_star_bound (now : Z) (payload : SearchFilters) (n : Z) :
  minStars payload = Some n ->
  let unbounded :=
    {| topic := topic payload; languageFilter := languageFilter payload;
       minStars := None; onlyMaintained := onlyMaintained payload;
       limit := limit payload |} in
  (n <= 0 -> buildGitHubQuery now payload = buildGitHubQuery now unbounded)
  /\ (0 < n ->
      length (querySegments now payload) = S (length (querySegments now unbounded))
      /\ ("stars:>=" +:+ pretty n) ∈ querySegments now payload
      /\ querySegments now unbounded `sublist_of` querySegments now payload).
Proof.
  intros Hm unbounded. subst unbounded.
  unfold buildGitHubQuery, querySegments. rewrite Hm.
  cbn [topic languageFilter minStars onlyMaintained limit].
  split; intros Hn; destruct (Z.ltb_spec 0 n); try lia; [reflexivity|].
  split; [rewrite !length_app; cbn [length]; lia|]. split.
  - rewrite !elem_of_app. right. right. left. apply list_elem_of_here.
  - apply sublist_app; [reflexivity|]. apply sublist_app; [reflexivity|].
    apply sublist_inserts_l. reflexivity.
Qed.

(** ** The action of the backend *)




(** ** The await loop, in general *)

Lemma ceilSeconds_pos (ms : Z) : 0 < ms -> 1 <= ceilSeconds ms.
Proof. pure. intros H. pose proof (ceilSeconds_bounds ms). lia. Qed.

Lemma waitLoop_past_deadline (fuel : nat) (deadline now : Z)
    (arrival : option Arrival) :
  deadline <= now ->
  waitLoop (S fuel) deadline now arrival = Some (TimedOut, now).
Proof.
  intros H. cbn [waitLoop]. destruct (Z.ltb_spec now deadline); [lia|reflexivity].
Qed.

(** X20: the await always settles, after one blocking pop at most: with a
    latency that is not negative, two turns of the loop are enough
    whatever happens on the result queue, and more change nothing. *)
Theorem waitForResult_settles (fuel : nat) (start : Z) (arrival : option Arrival) :
  0 <= latency -> (2 <= fuel)%nat ->
  waitForResult fuel start arrival = waitForResult 2 start arrival
  /\ is_Some (waitForResult fuel start arrival).
Proof.
  intros Hlat Hfuel. destruct fuel as [|[|fuel]]; [lia|lia|].
  assert (E : waitForResult (S (S fuel)) start arrival = waitForResult 2 start arrival
              /\ is_Some (waitForResult 2 start arrival)).
  { unfold waitForResult. set (deadline := start + SEARCH_TIMEOUT_MS).
    cbn [waitLoop].
    destruct (Z.ltb_spec start deadline) as [Hlt|Hge]; [|split; [reflexivity|eauto]].
    set (secs := Z.max 1 (ceilSeconds (deadline - start))).
    assert (Hsecs : deadline <= start + 1000 * secs).
    { pose proof (ceilSeconds_bounds (deadline - start)). subst secs. lia. }
    unfold brpop. destruct arrival as [a|].
    - destruct (pushedAt a <? start + 1000 * secs).
      + destruct (JSON_parse_result (raw a)); split; eauto.
      + destruct (Z.ltb_spec (start + 1000 * secs + latency) deadline); [lia|].
        split; [reflexivity|eauto].
    - destruct (Z.ltb_spec (start + 1000 * secs + latency) deadline); [lia|].
      split; [reflexivity|eauto]. }
  destruct E as [E1 E2]. split; [exact E1|]. rewrite E1. exact E2.
Qed.

(** X21: a result that is on the queue before the blocking pop ends is
    returned, at once when it was already waiting, and also when it comes
    after the deadline; unparsable data is reported as malformed, not as a
    timeout. *)
Theorem waitForResult_receives (fuel : nat) (start : Z) (a : Arrival) :
  0 < SEARCH_TIMEOUT_MS -> (1 <= fuel)%nat ->
  pushedAt a < start + 1000 * ceilSeconds SEARCH_TIMEOUT_MS ->
  waitForResult fuel start (Some a)
  = Some (match JSON_parse_result (raw a) with
          | Some parsed => Returned parsed
          | None => MalformedData
          end, Z.max start (pushedAt a) + latency).
Proof.
  intros HT Hfuel Ha. destruct fuel as [|fuel]; [lia|].
  unfold waitForResult. cbn [waitLoop].
  destruct (Z.ltb_spec start (start + SEARCH_TIMEOUT_MS)); [|lia].
  replace (start + SEARCH_TIMEOUT_MS - start) with SEARCH_TIMEOUT_MS by lia.
  pose proof (ceilSeconds_pos SEARCH_TIMEOUT_MS HT).
  replace (Z.max 1 (ceilSeconds SEARCH_TIMEOUT_MS))
    with (ceilSeconds SEARCH_TIMEOUT_MS) by lia.
  unfold brpop.
  destruct (Z.ltb_spec (pushedAt a) (start + 1000 * ceilSeconds SEARCH_TIMEOUT_MS));
    [|lia].
  destruct (JSON_parse_result (raw a)); reflexivity.
Qed.

(** X22: with a deadline of zero or less the await does not look at the queue:
    it times out at once, even when a result is waiting. *)
Theorem waitForResult_no_budget (fuel : nat) (start : Z) (arrival : option Arrival) :
  SEARCH_TIMEOUT_MS <= 0 -> (1 <= fuel)%nat ->
  waitForResult fuel start arrival = Some (TimedOut, start).
Proof.
  intros HT Hfuel. destruct fuel as [|fuel]; [lia|].
  unfold waitForResult. apply waitLoop_past_deadline. lia.
Qed.

(** ** From the action to the worker and back *)





(** ** Keeping the most recent entries *)

Lemma lrange0_take {A} (l : list A) (stop : Z) :
  0 <= stop -> lrange0 l stop = take (Z.to_nat (stop + 1)) l.
Proof.
  pure. intros H. unfold lrange0.
  destruct (Z.ltb_spec stop 0); [lia|]. destruct (Z.ltb_spec stop 0); [lia|reflexivity].
Qed.

Lemma lrange0_all {A} (l : list A) : lrange0 l (-1) = l.
Proof.
  pure. unfold lrange0. cbn [Z.ltb Z.compare].
  destruct (Z.ltb_spec (Z.of_nat (length l) + -1) 0) as [H|H].
  - destruct l; [reflexivity|simpl in H; lia].
  - apply take_ge. lia.
Qed.

Lemma filter_all {A} (P : A -> Prop) `{!forall x, Decision (P x)} (l : list A) :
  Forall P l -> filter P l = l.
Proof.
  pure. induction 1 as [|x r Hx Hr IH]; [reflexivity|].
  rewrite filter_cons_True by exact Hx. f_equal. exact IH.
Qed.

Lemma remembered_NoDup {A} (key : A -> string) (x : A) (l : list A) (n : nat) :
  NoDup (key <$> l) -> NoDup (key <$> remembered key x l n).
Proof.
  pure. intros Hl. unfold remembered.
  apply (sublist_NoDup _ (key <$> x :: filter (fun e => key e <> key x) l)).
  - csimpl. apply NoDup_cons. split.
    + intros Hin. apply list_elem_of_fmap in Hin as (e & He & Hin).
      apply list_elem_of_filter in Hin as [Hne _]. congruence.
    + apply (sublist_NoDup _ _ Hl). apply fmap_sublist, sublist_filter.
  - apply fmap_sublist, sublist_take.
Qed.

Lemma remembered_length {A} (key : A -> string) (x : A) (l : list A) (n : nat) :
  (length (remembered key x l n) <= n)%nat.
Proof. pure. unfold remembered. rewrite length_take. lia. Qed.

Lemma remembered_head {A} (key : A -> string) (x : A) (l : list A) (n : nat) :
  (1 <= n)%nat -> head (remembered key x l n) = Some x.
Proof. pure. intros H. destruct n; [lia|reflexivity]. Qed.

Lemma remembered_older {A} (key : A -> string) (x : A) (l : list A) (n : nat) :
  tail (remembered key x l (S n)) `sublist_of` l.
Proof.
  pure. unfold remembered. cbn [take tail].
  etrans; [apply sublist_take|apply sublist_filter].
Qed.

Lemma remembered_again {A} (key : A -> string) (x : A) (l : list A) (n : nat) :
  remembered key x (remembered key x l n) n = remembered key x l n.
Proof.
  pure. unfold remembered. destruct n as [|n]; [reflexivity|].
  cbn [take]. rewrite filter_cons_False by (intros H; apply H; reflexivity).
  f_equal.
  rewrite filter_all; [apply take_idemp|].
  apply Forall_forall. intros e He.
  pose proof (elem_of_sublist _ _ _ He (sublist_take _ _)) as Hin.
  apply list_elem_of_filter in Hin as [Hne _]. exact Hne.
Qed.


Lemma length_omap_le {A B} (f : A -> option B) (l : list A) :
  (length (omap f l) <= length l)%nat.
Proof.
  pure. induction l as [|x r IH]; [reflexivity|].
  csimpl. destruct (f x); simpl; lia.
Qed.

(** ** The dashboard's history *)

Lemma storeSearch_remembered (r : SearchResult) (st : AgentState) :
  searches (storeSearch r st) = remembered sr_jobId r (searches st) 6.
Proof. pure. reflexivity. Qed.

Lemma existsb_stored (j : string) (l : list SearchResult) :
  existsb (fun entry => bool_decide (sr_jobId entry = j)) l = true
  <-> j ∈ sr_jobId <$> l.
Proof.
  pure. rewrite existsb_exists, list_elem_of_fmap. split.
  - intros (e & Hin & He). apply bool_decide_eq_true in He.
    exists e. split; [congruence|apply list_elem_of_In, Hin].
  - intros (e & -> & Hin). exists e.
    split; [apply list_elem_of_In, Hin|apply bool_decide_eq_true; reflexivity].
Qed.

(** X24: the history of the dashboard stays well formed: storing a result and
    changing the active search keep the stored identifiers distinct, at
    most six searches, and the active identifier among them. A stored
    result becomes the first and the active one, replaces the search with
    its identifier, and leaves the older ones in their order; storing it
    again changes nothing. *)
Theorem history_invariant (r : SearchResult) (j : string) (st : AgentState) :
  historyOk st ->
  historyOk (storeSearch r st)
  /\ historyOk (setActiveSearch j st)
  /\ head (searches (storeSearch r st)) = Some r
  /\ activeJobId (storeSearch r st) = Some (sr_jobId r)
  /\ tail (searches (storeSearch r st)) `sublist_of` searches st
  /\ storeSearch r (storeSearch r st) = storeSearch r st
  /\ searches (setActiveSearch j st) = searches st.
Proof.
  pure. intros (Hnd & Hlen & Hact).
  split; [|split; [|split; [|split; [|split; [|split]]]]].
  - split; [|split].
    + rewrite storeSearch_remembered. apply remembered_NoDup, Hnd.
    + rewrite storeSearch_remembered. apply remembered_length.
    + intros j' [= <-]. rewrite storeSearch_remembered.
      apply list_elem_of_fmap. exists r. split; [reflexivity|].
      apply head_Some_elem_of, remembered_head. lia.
  - unfold setActiveSearch. destruct (Js.truthy (Js.trim j)); cbn [negb];
      [|repeat split; assumption].
    destruct (existsb _ (searches st)) eqn:Hex; cbn [negb orb];
      [|repeat split; assumption].
    destruct (bool_decide (activeJobId st = Some (Js.trim j)));
      [repeat split; assumption|].
    split; [exact Hnd|]. split; [exact Hlen|].
    intros j' [= <-]. apply existsb_stored, Hex.
  - rewrite storeSearch_remembered. apply remembered_head. lia.
  - reflexivity.
  - rewrite storeSearch_remembered. apply remembered_older.
  - unfold storeSearch at 1. cbn [activeJobId].
    change (Js.slice0 (r :: filter (fun entry => sr_jobId entry <> sr_jobId r)
                         (searches (storeSearch r st))) 6)
      with (remembered sr_jobId r (searches (storeSearch r st)) 6).
    rewrite storeSearch_remembered, remembered_again. reflexivity.
  - unfold setActiveSearch. destruct (Js.truthy (Js.trim j)); [|reflexivity].
    cbn [negb]. destruct (_ || _)%bool; reflexivity.
Qed.

(** X25: focusing a stored search succeeds exactly when the trimmed identifier
    is not blank and is in the history; it then makes that search the
    active one and leaves the history as it is. *)
Theorem focusStoredSearch_known_only (j : string) (st : AgentState) :
  match focusStoredSearch j st with
  | inr st' =>
      Js.truthy (Js.trim j) = true
      /\ Js.trim j ∈ (sr_jobId <$> searches st)
      /\ activeJobId st' = Some (Js.trim j)
      /\ searches st' = searches st
  | inl _ =>
      Js.truthy (Js.trim j) = false \/ Js.trim j ∉ (sr_jobId <$> searches st)
  end.
Proof.
  pure. unfold focusStoredSearch.
  destruct (Js.truthy (Js.trim j)) eqn:Ht; cbn [negb]; [|left; reflexivity].
  destruct (existsb _ (searches st)) eqn:Hex; cbn [negb].
  - split; [reflexivity|]. split; [apply existsb_stored, Hex|].
    unfold setActiveSearch. rewrite trim_idempotent, Ht, Hex. cbn [negb orb].
    case_bool_decide as Hact; [split; [exact Hact|reflexivity]|split; reflexivity].
  - right. intros Hin. apply existsb_stored in Hin. congruence.
Qed.

(** ** The favorites list *)

Lemma storeFavorite_remembered (x : string) (l : list string) :
  1 <= FAVORITES_LIMIT ->
  storeFavorite x l = remembered (fun e => e) x l (Z.to_nat FAVORITES_LIMIT).
Proof.
  intros H. unfold storeFavorite, remembered. rewrite lrange0_take by lia.
  replace (FAVORITES_LIMIT - 1 + 1) with FAVORITES_LIMIT by lia. reflexivity.
Qed.

(** X26: storing a favorite, with a limit of at least one: the favorite
    becomes the first of the list, an older copy of it is removed, the
    others keep their order, the list has no duplicates if it had none and
    holds at most [FAVORITES_LIMIT] entries; storing it again changes
    nothing. With a limit of zero the trim keeps the whole list. *)
Theorem storeFavorite_keeps_recent (x : string) (l : list string) :
  (1 <= FAVORITES_LIMIT ->
   head (storeFavorite x l) = Some x
   /\ (length (storeFavorite x l) <= Z.to_nat FAVORITES_LIMIT)%nat
   /\ (x ∉ tail (storeFavorite x l))
   /\ (tail (storeFavorite x l) `sublist_of` l)
   /\ (NoDup l -> NoDup (storeFavorite x l))
   /\ storeFavorite x (storeFavorite x l) = storeFavorite x l)
  /\ (FAVORITES_LIMIT = 0 ->
      storeFavorite x l = x :: filter (fun entry => entry <> x) l).
Proof.
  split.
  - intros H. rewrite !storeFavorite_remembered by exact H.
    assert (Hn : exists n, Z.to_nat FAVORITES_LIMIT = S n)
      by (exists (Z.to_nat (FAVORITES_LIMIT - 1)); lia).
    destruct Hn as [n Hn]. rewrite Hn.
    split; [apply remembered_head; lia|]. split; [apply remembered_length|].
    split; [|split; [apply (remembered_older (fun e => e))|split]].
    + unfold remembered. cbn [take tail]. intros Hin.
      pose proof (elem_of_sublist _ _ _ Hin (sublist_take _ _)) as Hin'.
      apply list_elem_of_filter in Hin' as [Hne _]. congruence.
    + intros Hnd.
      pose proof (remembered_NoDup (fun e : string => e) x l (S n)) as Hr.
      rewrite !list_fmap_id in Hr. exact (Hr Hnd).
    + apply remembered_again.
  - intros H. unfold storeFavorite. rewrite H. apply lrange0_all.
Qed.

(** X27: loading the favorites: the limit asked for counts when it is a
    number other than zero, and is capped at 12; for a limit of at least
    one the answer holds the parsed entries among the first [limit] of the
    list, in their order, an entry that does not parse being skipped, so
    twelve at most. *)
Theorem loadFavorites_bounded (limitParam : option (option Z))
    (favorites : list string) :
  favoritesLimit limitParam <= 12
  /\ (forall n, limitParam = Some (Some n) -> n <> 0 ->
        favoritesLimit limitParam = Z.min n 12)
  /\ (1 <= favoritesLimit limitParam ->
      loadFavorites limitParam favorites
      = omap JSON_parse_favorite
          (take (Z.to_nat (favoritesLimit limitParam)) favorites)
      /\ (length (loadFavorites limitParam favorites) <= 12)%nat).
Proof.
  split; [unfold favoritesLimit; lia|]. split.
  - intros n -> Hn. unfold favoritesLimit.
    destruct (Z.eqb_spec n 0); [congruence|reflexivity].
  - intros H. assert (Hle : favoritesLimit limitParam <= 12)
      by (unfold favoritesLimit; lia).
    unfold loadFavorites. rewrite lrange0_take by lia.
    replace (favoritesLimit limitParam - 1 + 1) with (favoritesLimit limitParam)
      by lia.
    split; [reflexivity|].
    etrans; [apply length_omap_le|]. rewrite length_take. lia.
Qed.

(** ** What the card shows *)




End Hunter.

(** * Concrete runs *)

(** C6, as the specification words it, fails: ninety days map to the
    sentence "activity within the last quarter", not to "last quarter". *)
Lemma C6_last_quarter_counterexample :
  describeFreshness (Finite 90) = "activity within the last quarter"
  /\ describeFreshness (Finite 90) <> "last quarter".
Proof. split; [reflexivity | discriminate]. Qed.

Lemma C6_describeFreshness_boundaries :
  describeFreshness (Finite 7) = "updated this week"
  /\ describeFreshness (Finite 30) = "updated this month"
  /\ describeFreshness (Finite 90) = "activity within the last quarter"
  /\ describeFreshness (Finite 180) = "activity within the last six months"
  /\ describeFreshness (Finite 365) = "activity within the last year"
  /\ describeFreshness (Finite 366) = "no recent commits in the last year".
Proof.
  pose proof (C6_describeFreshness_buckets 7) as (H7 & _).
  pose proof (C6_describeFreshness_buckets 30) as (_ & H30 & _).
  pose proof (C6_describeFreshness_buckets 90) as (_ & _ & H90 & _).
  pose proof (C6_describeFreshness_buckets 180) as (_ & _ & _ & H180 & _).
  pose proof (C6_describeFreshness_buckets 365) as (_ & _ & _ & _ & H365 & _).
  pose proof (C6_describeFreshness_buckets 366) as (_ & _ & _ & _ & _ & H366 & _).
  exact (conj (H7 ltac:(lia)) (conj (H30 ltac:(lia)) (conj (H90 ltac:(lia))
          (conj (H180 ltac:(lia)) (conj (H365 ltac:(lia)) (H366 ltac:(lia))))))).
Defined.

(** The popular sample candidate: 7.5 + 3 + 1 + 2.925 is 14.425 in exact
    arithmetic; in doubles the last sum falls between two doubles and goes
    to the one above 14.425, and the score is 14.43. *)
Lemma C1_normalizeRepo_score_witness :
  let p := normalizeRepo Sample.getTime Sample.log10 Sample.localeString
             Sample.now Sample.popular in
  score p = 1443 /\ daysSinceUpdate p = Finite 9.
Proof.
  pose proof (C1_normalizeRepo_score Sample.getTime Sample.log10
                Sample.localeString Sample.now Sample.popular)
    as (Hs & _ & _ & Hd & _).
  split.
  - rewrite Hs. vm_compute. reflexivity.
  - rewrite Hd. reflexivity.
Defined.

(** Three candidates scoring 1.50, 3.20 and 1.50: the best comes first and
    the two ties keep their order. *)
Example rank_three :
  map id
    (sort byScoreDesc
       [Sample.project 1 "a/one" "" 150 []; Sample.project 2 "b/two" "" 320 [];
        Sample.project 3 "c/three" "" 150 []])
  = [2; 1; 3].
Proof. reflexivity. Qed.

(** *** Doubles *)

(** The arithmetic of [Double] is that of the kernel's binary64 numbers:
    on the freshness bonus of ages from five days in the future to eleven
    years, and on sums, products and quotients of fractions that are not
    doubles. *)
Example double_is_binary64 :
  forallb
    (fun d =>
       bool_decide
         (Double.ofFloat
            (PrimFloat.sub 3 (PrimFloat.div (Sample.floatOfZ d) 120))
          = Some (Double.ofZ 3 - Double.ofZ d / Double.ofZ 120)%D))
    [-5; -1; 0; 1; 2; 3; 7; 9; 10; 30; 45; 90; 180; 359; 360; 365; 366; 4000]
  = true
  /\ forallb
       (fun a =>
          forallb
            (fun b =>
               let x := PrimFloat.div (Sample.floatOfZ a) 7 in
               let y := PrimFloat.div (Sample.floatOfZ b) 3 in
               let x' := (Double.ofZ a / Double.ofZ 7)%D in
               let y' := (Double.ofZ b / Double.ofZ 3)%D in
               bool_decide
                 (Double.ofFloat
                    (PrimFloat.sub
                       (PrimFloat.add (PrimFloat.mul x 2.5) (PrimFloat.mul y 1.5))
                       (PrimFloat.div x (PrimFloat.add y 1)))
                  = Some (x' * Double.decimal 25 10 + y' * Double.decimal 15 10
                          - x' / (y' + Double.ofZ 1))%D))
            [0; 1; 2])
       [-3; 1; 2; 5]
     = true.
Proof. split; vm_compute; reflexivity. Qed.

(** The double nearest to 3 - 9/120 lies below 2.925: a candidate without
    stars, forks, watchers and issues pushed nine days ago scores 2.92,
    and one pushed forty-five days ago, whose bonus 2.625 is a double,
    2.63. *)
Example score_of_a_tie :
  toFixed2 (freshnessScore (Finite 9)) = 292
  /\ 200 * freshnessScore (Finite 9) < 585 * Double.one
  /\ toFixed2 (freshnessScore (Finite 45)) = 263
  /\ 200 * freshnessScore (Finite 45) = 525 * Double.one
  /\ score (normalizeRepo Sample.getTime Sample.log10 Sample.localeString
              Sample.now (Sample.repo 1 "a/b" 0 (Some "2024-03-22T00:00:00Z")))
     = 292.
Proof.
  split; [vm_compute; reflexivity|]. split; [vm_compute; reflexivity|].
  split; [vm_compute; reflexivity|]. split; vm_compute; reflexivity.
Qed.

(** *** A ranking *)

Lemma score_sample_0 (k : Z) (full : string) :
  score (normalizeRepo Sample.getTime Sample.log10 Sample.localeString Sample.now
           (Sample.repo k full 0 None)) = 0.
Proof. vm_compute. reflexivity. Qed.

Lemma score_sample_9 (k : Z) (full : string) :
  score (normalizeRepo Sample.getTime Sample.log10 Sample.localeString Sample.now
           (Sample.repo k full 9 None)) = 350.
Proof. vm_compute. reflexivity. Qed.

(** A repository with nine stars and watchers, pushed thirty days ago:
    2.5 + 1 + (3 - 30/120) = 6.25. *)
Example normalize_dated :
  let p := normalizeRepo Sample.getTime Sample.log10 Sample.localeString Sample.now
             (Sample.repo 3 "c/dated" 9 (Some "2024-03-01T00:00:00Z")) in
  daysSinceUpdate p = Finite 30
  /\ score p = 625
  /\ reasons p = ["9 stars"; "updated this month"].
Proof. split; [reflexivity|]. split; [vm_compute|]; reflexivity. Qed.

Lemma rank_sample :
  fr_projects
    (rankRepositories Sample.getTime Sample.log10 Sample.localeString Sample.now
       (Sample.filters 6)
       [Sample.repo 1 "a/zero" 0 None; Sample.repo 2 "b/nine" 9 None])
  = [normalizeRepo Sample.getTime Sample.log10 Sample.localeString Sample.now
       (Sample.repo 2 "b/nine" 9 None);
     normalizeRepo Sample.getTime Sample.log10 Sample.localeString Sample.now
       (Sample.repo 1 "a/zero" 0 None)].
Proof.
  unfold rankRepositories. cbn [fr_projects map sort insertSorted].
  unfold byScoreDesc. rewrite score_sample_0, score_sample_9.
  reflexivity.
Qed.

Lemma C2_projects_sorted_stable_witness :
  let out :=
    fr_projects
      (rankRepositories Sample.getTime Sample.log10 Sample.localeString Sample.now
         (Sample.filters 6)
         [Sample.repo 1 "a/zero" 0 None; Sample.repo 2 "b/nine" 9 None]) in
  map name out = ["b/nine"; "a/zero"] /\ (0 < 1)%nat.
Proof.
  intros out. split.
  - subst out. rewrite rank_sample. reflexivity.
  - refine (proj1 (C2_projects_sorted_stable Sample.getTime Sample.log10 Sample.localeString
                     Sample.now (Sample.filters 6)
                     [Sample.repo 1 "a/zero" 0 None; Sample.repo 2 "b/nine" 9 None])
              0%nat 1%nat _ _ _ _ _).
    + fold out. subst out. rewrite rank_sample. reflexivity.
    + fold out. subst out. rewrite rank_sample. reflexivity.
    + rewrite score_sample_0, score_sample_9. lia.
Defined.

(** C9, as the specification words it, fails: the highlights are not
    distinct; two candidates with the same first reason give it twice. *)
Lemma C9_highlights_counterexample :
  summarizeResult (Sample.filters 6) Sample.twoFresh
  = "Found 2 standout open-source project(s) for " +:+ Js.dquote
    +:+ "graph database" +:+ Js.dquote
    +:+ ". Focused languages: Rust."
    +:+ " Highlights: updated this week, updated this week."
  /\ summaryHighlights Sample.twoFresh = ["updated this week"; "updated this week"]
  /\ ~ NoDup (summaryHighlights Sample.twoFresh).
Proof.
  split; [vm_compute; reflexivity|]. split; [reflexivity|].
  intros H. apply NoDup_cons in H as [H _]. apply H. vm_compute. left.
Qed.

(** *** Runs of the pipeline

    The worker with the sample library functions, without enrichment
    credential and without GitHub token. *)

Local Abbreviation demoJobResult :=
  (jobResult Sample.getTime Sample.log10 Sample.localeString Sample.isoString Sample.encode
     Sample.since "" None).
Local Abbreviation demoFetch :=
  (fetchRepositories Sample.getTime Sample.log10 Sample.localeString Sample.encode
     Sample.since None).
Local Abbreviation demoNormalize :=
  (normalizeRepo Sample.getTime Sample.log10 Sample.localeString Sample.now).
Local Abbreviation demoHandleJob :=
  (handleJob Sample.getTime Sample.log10 Sample.localeString Sample.isoString Sample.encode
     Sample.since "" None 300).
Local Abbreviation demoWork :=
  (workForever Sample.getTime Sample.log10 Sample.localeString Sample.isoString Sample.encode
     Sample.since Sample.parseJob "" None 300).

Lemma demoFetch_down :
  demoFetch Sample.worldDown (Sample.filters 6)
  = inl "GitHub search failed (500): boom".
Proof. reflexivity. Qed.

Lemma demoFetch_one (payload : SearchFilters) :
  demoFetch Sample.worldOne payload
  = inr (rankRepositories Sample.getTime Sample.log10 Sample.localeString Sample.now payload
           [Sample.repo 1 "a/one" 1 None]).
Proof. reflexivity. Qed.

(** C3, as the specification words it, fails: the envelope of a failed
    job has a status, the filters and the error text, but no
    [generatedAt]. *)
Lemma C3_error_envelope_counterexample :
  resultQueues (redis (demoHandleJob Sample.worldDown "job-1" (Sample.filters 6)
                         (Sample.idle [])))
    !! "hunter:results:job-1"
  = Some [Failed "GitHub search failed (500): boom" (Sample.filters 6)]
  /\ envelopeStatus (demoJobResult Sample.worldDown (Sample.filters 6)).1 = "error"
  /\ envelopeGeneratedAt (demoJobResult Sample.worldDown (Sample.filters 6)).1 = None.
Proof.
  split; [|split; reflexivity].
  rewrite handleJob_resultQueues.
  change (resultKeyOf "job-1") with "hunter:results:job-1".
  rewrite lookup_insert_eq. reflexivity.
Qed.

Lemma C3_result_envelope_witness :
  let e := (demoJobResult Sample.worldDown (Sample.filters 6)).1 in
  e = Failed "GitHub search failed (500): boom" (Sample.filters 6)
  /\ envelopeStatus e = "error"
  /\ envelopeError e = Some "GitHub search failed (500): boom"
  /\ envelopeGeneratedAt e = None.
Proof.
  exact (proj2 (proj2 (proj2 (proj2
           (C3_result_envelope Sample.getTime Sample.log10 Sample.localeString Sample.isoString
              Sample.encode Sample.since "" None 300 Sample.worldDown "job-1"
              (Sample.filters 6) (Sample.idle []))))) _ demoFetch_down).
Defined.

(** With a credential and an unreachable enrichment source the candidate
    without description is published as it was fetched. *)
Lemma C4_enrichment_never_fails_witness :
  let e := (jobResult Sample.getTime Sample.log10 Sample.localeString Sample.isoString
              Sample.encode Sample.since "tvly-key" None
              Sample.worldOne (Sample.filters 6)).1 in
  envelopeStatus e = "completed"
  /\ exists projects,
       envelopeProjects e = Some projects
       /\ projects !! 0%nat = Some (demoNormalize (Sample.repo 1 "a/one" 1 None)).
Proof.
  destruct (C4_enrichment_never_fails Sample.getTime Sample.log10 Sample.localeString
              Sample.isoString Sample.encode Sample.since "tvly-key" None
              Sample.worldOne (Sample.filters 6) _ (demoFetch_one (Sample.filters 6)))
    as (Hs & (projects & Hp & _ & Hk & _) & _).
  split; [exact Hs|].
  exists projects. split; [exact Hp|].
  apply Hk; reflexivity.
Defined.

(** C5, as the specification words it, fails: the worker does not filter,
    so a source that returns a one-star repository to a query asking for
    a hundred stars gets it published. *)
Lemma C5_minStars_counterexample :
  exists p,
    envelopeProjects (demoJobResult Sample.worldOne (Sample.filtersMinStars 100)).1
    = Some [p]
    /\ stars p = 1%N
    /\ ~ (100 <= Z.of_N (stars p)).
Proof.
  exists (demoNormalize (Sample.repo 1 "a/one" 1 None)).
  split; [reflexivity|]. split; [reflexivity|]. simpl. lia.
Qed.

Lemma C5_minStars_witness :
  "stars:>=1" ∈ querySegments Sample.since Sample.now (Sample.filtersMinStars 1)
  /\ Forall (fun p => 1 <= Z.of_N (stars p))
       [demoNormalize (Sample.repo 1 "a/one" 1 None)].
Proof.
  destruct (C5_minStars Sample.getTime Sample.log10 Sample.localeString Sample.isoString
              Sample.encode Sample.since "" None Sample.worldOne
              (Sample.filtersMinStars 1) 1
              [demoNormalize (Sample.repo 1 "a/one" 1 None)]
              eq_refl ltac:(lia) eq_refl)
    as (Hq & status & body & items & Hg & _ & Hall).
  split; [exact Hq|].
  apply Hall. injection Hg as _ _ <-.
  constructor; [simpl; lia|constructor].
Defined.

(** A request that does not parse, then a well-formed one. *)
Lemma C7_malformed_dropped_witness :
  let s := Sample.idle ["{oops"; "good"] in
  requests (redis (demoWork [Sample.worldDown; Sample.worldOne] s)) = []
  /\ resultQueues (redis (demoWork [Sample.worldDown] s)) = ∅
  /\ resultQueues (redis (demoWork [Sample.worldDown; Sample.worldOne] s))
       !! "hunter:results:job-1"
     = Some [(demoJobResult Sample.worldOne (Sample.filters 6)).1]
  /\ envelopeStatus (demoJobResult Sample.worldOne (Sample.filters 6)).1
     = "completed".
Proof.
  destruct (C7_malformed_dropped Sample.getTime Sample.log10 Sample.localeString
              Sample.isoString Sample.encode Sample.since Sample.parseJob "" None
              300 Sample.worldDown Sample.worldOne "{oops" "good" "job-1"
              (Sample.filters 6) [] (Sample.idle ["{oops"; "good"])
              I eq_refl eq_refl eq_refl)
    as (_ & Hq1 & _ & _ & _ & Hreq & Hq2 & Hdone).
  split; [exact Hreq|]. split; [exact Hq1|]. split.
  - rewrite Hq2. change (resultKeyOf "job-1") with "hunter:results:job-1".
    rewrite lookup_insert_eq. reflexivity.
  - exact (Hdone _ (demoFetch_one (Sample.filters 6))).
Defined.

(** *** Runs of the await loop *)

(** C8, as the specification words it, fails: with a deadline of 500 ms,
    no worker and no latency, the blocking pop lasts one whole second and
    the timeout is reported after 1000 ms, not before 600 ms; and a result
    pushed at 700 ms, after the deadline, is still returned. *)
Lemma C8_timeout_counterexample :
  waitForResult 500 Sample.parseResult 0 2 0 None = Some (TimedOut, 1000)
  /\ ~ (1000 - 0 < 600)
  /\ waitForResult 500 Sample.parseResult 0 2 0
       (Some {| pushedAt := 700; raw := "late" |})
     = Some (Returned (Failed "late" (Sample.filters 6)), 700).
Proof. split; [reflexivity|]. split; [lia|reflexivity]. Qed.

Lemma C8_timeout_bounded_witness :
  waitForResult 500 Sample.parseResult 0 2 0 None = Some (TimedOut, 1000)
  /\ 0 + 500 <= 1000
  /\ 1000 - (0 + 500) < 1000 + 0.
Proof.
  exact (C8_timeout_bounded 500 Sample.parseResult 0 2 0 None
           ltac:(lia) ltac:(lia) ltac:(lia) I).
Defined.

(** *** Other runs *)

Lemma C9_summarizeResult_witness :
  summarizeResult (Sample.filters 6) Sample.twoFresh
  = "Found 2 standout open-source project(s) for " +:+ Js.dquote
    +:+ "graph database" +:+ Js.dquote +:+ "."
    +:+ languageClause Sample.twoFresh +:+ highlightsClause Sample.twoFresh
  /\ Js.startsWith
       "Found 2 standout open-source project(s) that are actively maintained"
       (summarizeResult (Sample.filters 6) Sample.twoFresh) = false.
Proof.
  exact (proj1 (proj2 (C9_summarizeResult (Sample.filters 6) Sample.twoFresh))
           ltac:(discriminate)).
Defined.

(** A repository without stars, forks, license or date has the single
    reason "unknown activity". *)
Lemma C10_reasons_nonempty_witness :
  reasons (demoNormalize (Sample.repo 1 "a/zero" 0 None)) = ["unknown activity"].
Proof.
  exact (proj2 (proj2 (proj2
           (C10_reasons_nonempty Sample.getTime Sample.log10 Sample.localeString Sample.now
              (Sample.repo 1 "a/zero" 0 None)))) eq_refl eq_refl eq_refl).
Defined.

(** *** Further runs *)

Lemma daysSinceUpdate_nearest_day_witness :
  daysSinceUpdate
    (demoNormalize (Sample.repo 3 "c/dated" 9 (Some "2024-03-01T00:00:00Z")))
  = Finite 30.
Proof.
  exact (proj1 (daysSinceUpdate_nearest_day Sample.getTime Sample.log10 Sample.localeString
                  Sample.now 1709251200000 30
                  (Sample.repo 3 "c/dated" 9 (Some "2024-03-01T00:00:00Z"))
                  "2024-03-01T00:00:00Z" eq_refl eq_refl eq_refl
                  ltac:(unfold Sample.now; lia))).
Defined.

Lemma invalid_date_unknown_activity_witness :
  "unknown activity"
  ∈ reasons (demoNormalize (Sample.repo 4 "d/odd" 1 (Some "yesterday"))).
Proof.
  exact (proj1 (proj2 (invalid_date_unknown_activity Sample.getTime Sample.log10
                         Sample.localeString Sample.now
                         (Sample.repo 4 "d/odd" 1 (Some "yesterday"))
                         "yesterday" eq_refl eq_refl))).
Defined.

Lemma freshness_bonus_range_witness :
  freshnessScore (Finite 400) = 0 /\ freshnessScore (Finite 10) <= Double.ofZ 3.
Proof.
  pose proof (freshness_bonus_range (Finite 400)) as (_ & _ & H0 & _).
  pose proof (freshness_bonus_range (Finite 10)) as (_ & H3 & _).
  split.
  - apply (H0 400 eq_refl). lia.
  - apply (H3 10 eq_refl). lia.
Defined.



Lemma score_monotonic_in_recency_witness :
  score (demoNormalize (Sample.repo 5 "e/old" 9 (Some "2024-01-01T00:00:00Z")))
  <= score (demoNormalize (Sample.repo 3 "c/dated" 9 (Some "2024-03-01T00:00:00Z"))).
Proof.
  apply (score_monotonic_in_recency Sample.getTime Sample.log10 Sample.localeString Sample.now
           1704067200000 1709251200000
           (Sample.repo 5 "e/old" 9 (Some "2024-01-01T00:00:00Z"))
           (Sample.repo 3 "c/dated" 9 (Some "2024-03-01T00:00:00Z"))
           "2024-01-01T00:00:00Z" "2024-03-01T00:00:00Z");
    (reflexivity || lia).
Defined.

Lemma cleanDescription_trimmed_witness :
  cleanDescription (Some "   ") = ""
  /\ cleanDescription (Some (cleanDescription (Some "  a graph store ")))
     = cleanDescription (Some "  a graph store ").
Proof.
  split.
  - apply (proj2 (proj2 (proj2 (proj2 (cleanDescription_trimmed (Some "   ")))))
             "   " eq_refl).
    repeat constructor.
  - exact (proj1 (proj2 (proj2 (cleanDescription_trimmed (Some "  a graph store "))))).
Defined.

Lemma lookup_prefers_answer_witness :
  fetchDescriptionFromTavily "tvly-key" Sample.worldAnswer 0
    (demoNormalize (Sample.repo 1 "a/one" 1 None)) "graph database"
  = (Some "A graph store.", []).
Proof.
  exact (proj1 (proj1 (lookup_prefers_answer "tvly-key" Sample.worldAnswer 0
                  (demoNormalize (Sample.repo 1 "a/one" 1 None)) "graph database"
                  200 ""
                  {| answer := Some " A graph store. "; results := [Some "ignored"] |}
                  eq_refl eq_refl eq_refl eq_refl)
           " A graph store. " eq_refl eq_refl)).
Defined.

Local Abbreviation keyedJobResult :=
  (jobResult Sample.getTime Sample.log10 Sample.localeString Sample.isoString Sample.encode
     Sample.since "tvly-key" None).

Lemma demoFetch_answer (payload : SearchFilters) :
  demoFetch Sample.worldAnswer payload
  = inr (rankRepositories Sample.getTime Sample.log10 Sample.localeString Sample.now payload
           [Sample.repo 1 "a/one" 1 None]).
Proof. reflexivity. Qed.

Lemma keyedJobResult_answer :
  envelopeProjects (keyedJobResult Sample.worldAnswer (Sample.filters 6)).1
  = Some [setDescription "A graph store."
            (demoNormalize (Sample.repo 1 "a/one" 1 None))].
Proof. reflexivity. Qed.

(** The candidate without description gets the answer, trimmed. *)
Lemma enrichment_only_fills_gaps_witness :
  Js.truthy "A graph store." = true
  /\ Js.trim "A graph store." = "A graph store.".
Proof.
  destruct (enrichment_only_fills_gaps Sample.getTime Sample.log10 Sample.localeString
              Sample.isoString Sample.encode Sample.since "tvly-key" None
              Sample.worldAnswer (Sample.filters 6) _ _
              (demoFetch_answer (Sample.filters 6)) keyedJobResult_answer
              0%nat (demoNormalize (Sample.repo 1 "a/one" 1 None))
              (setDescription "A graph store."
                 (demoNormalize (Sample.repo 1 "a/one" 1 None)))
              eq_refl eq_refl) as [_ H].
  destruct (H ltac:(discriminate)) as (_ & _ & _ & Ht & Htrim).
  split; [exact Ht|exact Htrim].
Defined.

Lemma source_failure_messages_witness :
  envelopeError (demoJobResult Sample.worldDown (Sample.filters 6)).1
  = Some "GitHub search failed (500): boom".
Proof.
  exact (source_failure_messages Sample.getTime Sample.log10 Sample.localeString
           Sample.isoString Sample.encode Sample.since "" None Sample.worldDown
           (Sample.filters 6) eq_refl).
Defined.

Lemma demoJobResult_one (payload : SearchFilters) :
  0 <= limit payload ->
  envelopeProjects (demoJobResult Sample.worldOne payload).1
  = Some (Js.slice0 [demoNormalize (Sample.repo 1 "a/one" 1 None)] (limit payload)).
Proof. reflexivity. Qed.

Lemma published_is_truncated_ranking_witness :
  exists projects,
    envelopeProjects (demoJobResult Sample.worldOne (Sample.filters 6)).1
    = Some projects
    /\ length projects = 1%nat
    /\ id <$> projects ⊆+ [1].
Proof.
  destruct (published_is_truncated_ranking Sample.getTime Sample.log10 Sample.localeString
              Sample.isoString Sample.encode Sample.since "" None Sample.worldOne
              (Sample.filters 6) _ _ (demoFetch_one (Sample.filters 6))
              (demoJobResult_one (Sample.filters 6) ltac:(simpl; lia)))
    as (status & body & items & Hg & _ & Hlen & _ & Hids).
  injection Hg as _ _ <-.
  eexists. split; [reflexivity|]. split.
  - exact (Hlen ltac:(simpl; lia)).
  - exact Hids.
Defined.

Lemma job_keys_are_disjoint_witness :
  resultKeyOf "job-1" <> metaKeyOf "job-1" /\ "job-1" = "job-1".
Proof.
  pose proof (job_keys_are_disjoint "job-1" "job-1") as (Hinj & _ & Hne & _).
  split; [exact Hne|exact (Hinj eq_refl)].
Defined.

Lemma handleJob_status_record_witness :
  let r' := redis (demoHandleJob Sample.worldDown "job-1" (Sample.filters 6)
                     (Sample.idle [])) in
  jobMeta r' !! metaKeyOf "job-1"
  = Some (StError "GitHub search failed (500): boom" (Sample.isoString Sample.now))
  /\ resultQueues r' !! resultKeyOf "job-2" = None.
Proof.
  destruct (handleJob_status_record Sample.getTime Sample.log10 Sample.localeString
              Sample.isoString Sample.encode Sample.since "" None 300
              Sample.worldDown "job-1" (Sample.filters 6) (Sample.idle []))
    as (Hmeta & _ & _ & _ & Hother).
  split; [exact Hmeta|].
  exact (proj1 (Hother "job-2" ltac:(discriminate))).
Defined.

Lemma workForever_one_envelope_per_request_witness :
  let s' := demoWork [Sample.worldDown; Sample.worldOne]
              (Sample.idle ["{oops"; "good"]) in
  requests (redis s') = []
  /\ length (default [] (resultQueues (redis s') !! resultKeyOf "job-1")) = 1%nat.
Proof.
  exact (conj
    (proj1 (workForever_one_envelope_per_request Sample.getTime Sample.log10 Sample.localeString
              Sample.isoString Sample.encode Sample.since Sample.parseJob "" None 300
              [Sample.worldDown; Sample.worldOne] (Sample.idle ["{oops"; "good"])
              ltac:(simpl; lia)))
    (proj2 (workForever_one_envelope_per_request Sample.getTime Sample.log10 Sample.localeString
              Sample.isoString Sample.encode Sample.since Sample.parseJob "" None 300
              [Sample.worldDown; Sample.worldOne] (Sample.idle ["{oops"; "good"])
              ltac:(simpl; lia)) "job-1")).
Defined.

Lemma malformed_request_is_not_fetched_witness :
  processRequest Sample.getTime Sample.log10 Sample.localeString Sample.isoString Sample.encode
    Sample.since Sample.parseJob "" None 300 Sample.worldDown "{oops" (Sample.idle [])
  = processRequest Sample.getTime Sample.log10 Sample.localeString Sample.isoString Sample.encode
      Sample.since Sample.parseJob "" None 300 Sample.worldOne "{oops" (Sample.idle []).
Proof.
  exact (malformed_request_is_not_fetched Sample.getTime Sample.log10 Sample.localeString
           Sample.isoString Sample.encode Sample.since Sample.parseJob "" None 300
           Sample.worldDown Sample.worldOne "{oops" (Sample.idle []) eq_refl).
Defined.

Lemma query_without_star_bound_witness :
  buildGitHubQuery Sample.encode Sample.since Sample.now (Sample.filtersMinStars 0)
  = buildGitHubQuery Sample.encode Sample.since Sample.now (Sample.filters 6).
Proof.
  exact (proj1 (query_without_star_bound Sample.encode Sample.since Sample.now
                  (Sample.filtersMinStars 0) 0 eq_refl) ltac:(lia)).
Defined.



Lemma waitForResult_settles_witness :
  waitForResult 500 Sample.parseResult 0 5 0 None
  = waitForResult 500 Sample.parseResult 0 2 0 None.
Proof.
  exact (proj1 (waitForResult_settles 500 Sample.parseResult 0 5 0 None
                  ltac:(lia) ltac:(lia))).
Defined.

Lemma waitForResult_receives_witness :
  waitForResult 500 Sample.parseResult 0 1 0
    (Some {| pushedAt := 700; raw := "late" |})
  = Some (Returned (Failed "late" (Sample.filters 6)), 700).
Proof.
  exact (waitForResult_receives 500 Sample.parseResult 0 1 0
           {| pushedAt := 700; raw := "late" |} ltac:(lia) ltac:(lia)
           ltac:(vm_compute; reflexivity)).
Defined.

Lemma waitForResult_no_budget_witness :
  waitForResult 0 Sample.parseResult 0 1 100
    (Some {| pushedAt := 0; raw := "ready" |})
  = Some (TimedOut, 100).
Proof.
  exact (waitForResult_no_budget 0 Sample.parseResult 0 1 100
           (Some {| pushedAt := 0; raw := "ready" |}) ltac:(lia) ltac:(lia)).
Defined.


Lemma history_ok : historyOk Sample.history.
Proof.
  split; [|split].
  - apply NoDup_cons. split; [|apply NoDup_singleton].
    intros H. apply list_elem_of_singleton in H. discriminate.
  - simpl. lia.
  - intros j [= <-]. apply list_elem_of_here.
Qed.

Lemma history_invariant_witness :
  historyOk (storeSearch (Sample.search "job-2") Sample.history)
  /\ sr_jobId <$> searches (storeSearch (Sample.search "job-2") Sample.history)
     = ["job-2"; "job-1"].
Proof.
  split; [|reflexivity].
  exact (proj1 (history_invariant (Sample.search "job-2") "job-1" Sample.history
                  history_ok)).
Defined.

Lemma storeFavorite_keeps_recent_witness :
  storeFavorite 2 "c" ["a"; "b"; "c"] = ["c"; "a"]
  /\ head (storeFavorite 2 "c" ["a"; "b"; "c"]) = Some "c"
  /\ storeFavorite 0 "c" ["a"; "b"; "c"] = ["c"; "a"; "b"].
Proof.
  split; [reflexivity|]. split.
  - exact (proj1 (proj1 (storeFavorite_keeps_recent 2 "c" ["a"; "b"; "c"])
                    ltac:(lia))).
  - exact (proj2 (storeFavorite_keeps_recent 0 "c" ["a"; "b"; "c"]) eq_refl).
Defined.

Lemma loadFavorites_bounded_witness :
  loadFavorites 8 string (fun s => if bool_decide (s = "{") then None else Some s)
    (Some (Some 2)) ["a"; "{"; "c"]
  = ["a"]
  /\ favoritesLimit 8 (Some (Some 40)) = 12.
Proof.
  split.
  - exact (proj1 (proj2 (proj2 (loadFavorites_bounded 8 string
                    (fun s => if bool_decide (s = "{") then None else Some s)
                    (Some (Some 2)) ["a"; "{"; "c"])) ltac:(vm_compute; discriminate))).
  - exact (proj1 (proj2 (loadFavorites_bounded 8 string (fun s => Some s)
                    (Some (Some 40)) [])) 40 eq_refl ltac:(lia)).
Defined.

